(** * Proposal generator: a shallow embedding of [app.py]

    The program stores uploaded PDF modules in a folder, draws a one-page
    cover and concatenates a cover and modules into an exported PDF.  The
    development models

    - Python strings as [string] (sequences of 8-bit characters),
    - [os.path] and the file system the program reads and writes,
    - the calls into pypdf, reportlab, werkzeug and [datetime] as type
      classes (they are libraries, not code of the program),
    - exceptions as a result type, a loop that can raise part-way as the
      sequence of its turns,
    - ReportLab lengths (Python floats) as exact rationals [Qc]: the
      program rounds them, and nothing below is proved from the arithmetic
      of the image sizes. *)

From Stdlib Require Import Ascii QArith Qcanon.
From stdpp Require Import gmap strings list sorting pretty numbers.

Local Open Scope string_scope.
Local Open Scope list_scope.

(** ** Python string operations *)

Module PyStr.

(** [str.lower] on the letters 'A'..'Z'; the other characters are kept,
    none of them lower-cases to a character of [.pdf]. *)
Definition lower_char (c : ascii) : ascii :=
  let n := nat_of_ascii c in
  if (65 <=? n)%nat && (n <=? 90)%nat then ascii_of_nat (n + 32) else c.

Fixpoint lower (s : string) : string :=
  match s with
  | "" => ""
  | String c s' => String (lower_char c) (lower s')
  end.

Definition endswith (s suffix : string) : bool :=
  String.prefix (String.rev suffix) (String.rev s).

(** [bool(s)]: a string is truthy when it is not empty. *)
Definition truthy (s : string) : bool :=
  match s with "" => false | _ => true end.

(** [str.isspace] for one character with code point below 256. *)
Definition isspace (c : ascii) : bool :=
  let n := nat_of_ascii c in
  ((9 <=? n)%nat && (n <=? 13)%nat) || ((28 <=? n)%nat && (n <=? 32)%nat)
  || (n =? 133)%nat || (n =? 160)%nat.

(** [str.split()] with no argument: the maximal runs of non-space
    characters.  [split_go s] is the run [s] starts with (empty when [s]
    starts with a space) and the runs after it. *)
Definition push_word (w : string) (ws : list string) : list string :=
  if truthy w then w :: ws else ws.

Fixpoint split_go (s : string) : string * list string :=
  match s with
  | "" => ("", [])
  | String c s' =>
      let '(w, ws) := split_go s' in
      if isspace c then ("", push_word w ws) else (String c w, ws)
  end.
Definition split (s : string) : list string :=
  let '(w, ws) := split_go s in push_word w ws.

Fixpoint lstrip (s : string) : string :=
  match s with
  | String c s' => if isspace c then lstrip s' else s
  | "" => ""
  end.
Fixpoint rstrip (s : string) : string :=
  match s with
  | String c s' =>
      let r := rstrip s' in
      if isspace c && negb (truthy r) then "" else String c r
  | "" => ""
  end.
Definition strip (s : string) : string := rstrip (lstrip s).

(** A word: not empty, no space in it. *)
Fixpoint solid (w : string) : bool :=
  match w with
  | "" => true
  | String c w' => negb (isspace c) && solid w'
  end.
Definition word (w : string) : Prop := solid w = true ∧ w ≠ "".

(** [sep.join(l)] *)
Fixpoint join (sep : string) (l : list string) : string :=
  match l with
  | [] => ""
  | [w] => w
  | w :: ws => w +:+ sep +:+ join sep ws
  end.

(** The program's test [name.lower().endswith('.pdf')]. *)
Definition is_pdf_name (name : string) : bool := endswith (lower name) ".pdf".

End PyStr.

(** ** [os.path] and the file system *)

Module OsPath.

Definition sep : ascii := "/"%char.

Definition startswith_sep (s : string) : bool :=
  match s with String c _ => bool_decide (c = sep) | "" => false end.

Fixpoint endswith_sep (s : string) : bool :=
  match s with
  | "" => false
  | String c "" => bool_decide (c = sep)
  | String _ s' => endswith_sep s'
  end.

(** [posixpath.join(a, b)] *)
Definition join (a b : string) : string :=
  if startswith_sep b then b
  else if negb (PyStr.truthy a) || endswith_sep a then a +:+ b
  else a +:+ "/" +:+ b.

(** The components of a path string, empty components included. *)
Fixpoint components (s : string) : list string :=
  match s with
  | "" => [""]
  | String c s' =>
      if bool_decide (c = sep) then "" :: components s'
      else match components s' with
           | w :: ws => String c w :: ws
           | [] => [String c ""]
           end
  end.

(** A resolved location: the directory names from the root downwards. *)
Abbreviation path := (list string).

Definition walk (here : path) (name : string) : path :=
  if bool_decide (name = "") || bool_decide (name = ".") then here
  else if bool_decide (name = "..") then removelast here
  else here ++ [name].

(** The location a path string denotes for a process whose working
    directory is [cwd]; [.] and [..] are resolved lexically.  For the plain
    names of upload, listing and the areas this is the entry the operating
    system reaches; for a name that holds a separator the operating system
    also asks every directory on the way to exist. *)
Definition resolve (cwd : path) (s : string) : path :=
  fold_left walk (components s) (if startswith_sep s then [] else cwd).

(** [p] lies strictly below the directory [d]. *)
Definition inside (d p : path) : bool :=
  bool_decide (d `prefix_of` p) && bool_decide (p ≠ d).


(** [posixpath.splitext(p)]: the extension starts at the last dot of the
    last component, unless only dots precede it there. *)
Fixpoint rfind_go (c : ascii) (s : string) (i : Z) (found : Z) : Z :=
  match s with
  | "" => found
  | String c' s' => rfind_go c s' (i + 1) (if bool_decide (c' = c) then i else found)
  end.
(** [s.rfind(c)], -1 when [c] does not occur. *)
Definition rfind (c : ascii) (s : string) : Z := rfind_go c s 0 (-1).

Fixpoint all_dots (s : string) : bool :=
  match s with
  | "" => true
  | String c s' => bool_decide (c = "."%char) && all_dots s'
  end.

Definition splitext (p : string) : string * string :=
  let sepIndex := rfind sep p in
  let dotIndex := rfind "."%char p in
  if bool_decide (sepIndex < dotIndex)%Z then
    let filenameIndex := Z.to_nat (sepIndex + 1) in
    let dot := Z.to_nat dotIndex in
    if all_dots (String.substring filenameIndex (dot - filenameIndex) p)
    then (p, "")
    else (String.substring 0 dot p, String.substring dot (String.length p - dot) p)
  else (p, "").

End OsPath.

(** A path string of one component: no separator occurs in it. *)
Definition flat (s : string) : Prop := OsPath.components s = [s].

(** A name that denotes an entry of the directory it is joined to. *)
Definition plain (s : string) : Prop :=
  flat s ∧ s ≠ "" ∧ s ≠ "." ∧ s ≠ "..".

(** ** Exceptions *)

Inductive exn :=
| FileNotFoundError
| IsADirectoryError
| PdfReadError
| ImageError
| ValueError
| AttributeError.

Inductive result (A : Type) :=
| Ok (a : A)
| Raise (e : exn).
Arguments Ok {A} a.
Arguments Raise {A} e.

#[global] Instance result_ret : MRet result := @Ok.
#[global] Instance result_bind : MBind result := λ A B k r,
  match r with Ok a => k a | Raise e => Raise e end.

(** [try: r  except Exception: handler] *)
Definition try_except {A} (r : result A) (handler : exn → A) : A :=
  match r with Ok a => a | Raise e => handler e end.

(** A run of statements, or of the turns of a loop, each of which gives a
    value or raises: the values given before the first exception, and that
    exception, if there is one. *)
Fixpoint completed {A} (run : list (result A)) : list A :=
  match run with
  | Ok a :: run => a :: completed run
  | _ => []
  end.

Fixpoint raised {A} (run : list (result A)) : option exn :=
  match run with
  | [] => None
  | Ok _ :: run => raised run
  | Raise e :: _ => Some e
  end.

(** ** The file system *)

Definition bytes := list Byte.byte.

Inductive node :=
| Dir
| File (data : bytes).

Abbreviation filesystem := (gmap OsPath.path node).

(** Where the program runs: the working directory of the process,
    [os.path.dirname(__file__)] and the three brand colours it reads from the
    environment. *)
Class Deployment := {
  cwd : OsPath.path;
  app_dir : string;
  BRAND_BLUE : string;
  ORANGE : string;
  GREY : string;
}.

Section Store.
Context `{Deployment}.

(* Configuration *)
Definition UPLOAD_FOLDER : string := OsPath.join app_dir "uploads".
Definition COVER_FOLDER : string := OsPath.join UPLOAD_FOLDER "covers".
Definition EXPORT_FOLDER : string := OsPath.join UPLOAD_FOLDER "exports".
Definition STATIC_FOLDER : string := OsPath.join app_dir "static".

Definition locate (p : string) : OsPath.path := OsPath.resolve cwd p.

(** [os.path.exists(p)] *)
Definition exists_ (fs : filesystem) (p : string) : bool :=
  bool_decide (is_Some (fs !! locate p)).

(** [open(p, 'rb').read()] *)
Definition read_file (fs : filesystem) (p : string) : result bytes :=
  match fs !! locate p with
  | Some (File data) => Ok data
  | Some Dir => Raise IsADirectoryError
  | None => Raise FileNotFoundError
  end.

(** [open(p, 'wb').write(data)] *)
Definition write_file (fs : filesystem) (p : string) (data : bytes) : filesystem :=
  <[locate p := File data]> fs.

(** [os.listdir(d)]: the names of the entries directly inside [d], in the
    order the file system enumerates them (the folders the program lists
    are made at startup). *)
Definition entry_of (d p : OsPath.path) : option string :=
  match list.last p with
  | Some name => if bool_decide (p = d ++ [name]) then Some name else None
  | None => None
  end.

Definition listdir (fs : filesystem) (d : string) : list string :=
  omap (entry_of (locate d)) (elements (dom fs)).

(** The three [os.makedirs(..., exist_ok=True)] calls at import time. *)
Definition startup (fs : filesystem) : filesystem :=
  <[locate EXPORT_FOLDER := Dir]>
    (<[locate COVER_FOLDER := Dir]> (<[locate UPLOAD_FOLDER := Dir]> fs)).

(** [sorted(l)] on strings. *)
Definition sorted (l : list string) : list string := merge_sort String.le l.

(** [list_modules] *)
Definition list_modules (fs : filesystem) : list string :=
  fold_left (λ files fname,
               if PyStr.is_pdf_name fname then files ++ [fname] else files)
            (sorted (listdir fs UPLOAD_FOLDER)) [].

(** The route [/list_modules]: the file system afterwards and the JSON
    array of the response. *)
Definition list_modules_api (fs : filesystem) : filesystem * list string :=
  (fs, list_modules fs).

End Store.

(** ** Export Merger *)

(** pypdf: the page objects; [PdfReader(stream)], which raises when the
    stream cannot be opened as a PDF and else gives a reader whose pages are
    read one at a time, as the loop asks for them: each turn of
    [for page in reader.pages: writer.add_page(page)] gives the page it adds
    to the writer or the exception it raises; and what [PdfWriter.write]
    emits. *)
Class Pypdf := {
  page : Type;
  parse_pdf : bytes → result (list (result page));
  write_pdf : list page → bytes;
}.

Inductive log_entry :=
| ErrorAddingCover (e : exn)
| ErrorMerging (filename : string) (e : exn).

Section ExportMerger.
Context `{Deployment, Pypdf}.

(** The state the request handler threads: the [PdfWriter], the paths it
    handed to [PdfReader], and what it printed. *)
Record merger := Merger {
  writer : list page;
  opened : list string;
  stdout : list log_entry;
}.

Definition PdfWriter : merger := Merger [] [] [].

Definition add_page (m : merger) (p : page) : merger :=
  Merger (writer m ++ [p]) (opened m) (stdout m).

Definition print (m : merger) (line : log_entry) : merger :=
  Merger (writer m) (opened m) (stdout m ++ [line]).

(** [reader = PdfReader(path)]: the turns of the loop over its pages. *)
Definition PdfReader (fs : filesystem) (path : string) : result (list (result page)) :=
  data ← read_file fs path; parse_pdf data.

(** [for page in reader.pages: writer.add_page(page)]: the merger when the
    loop ends, with the exception that ended it, if one did.  The pages
    added before an exception stay in the writer. *)
Fixpoint add_pages (m : merger) (pages : list (result page)) : merger * option exn :=
  match pages with
  | [] => (m, None)
  | Ok page :: pages => add_pages (add_page m page) pages
  | Raise e :: _ => (m, Some e)
  end.

(** [try: reader = PdfReader(path); for page in reader.pages:
    writer.add_page(page)  except Exception as e: print(...)] *)
Definition try_add (fs : filesystem) (path : string)
    (on_error : exn → log_entry) (m : merger) : merger :=
  let m := Merger (writer m) (opened m ++ [path]) (stdout m) in
  match PdfReader fs path with
  | Ok reader =>
      match add_pages m reader with
      | (m, None) => m
      | (m, Some e) => print m (on_error e)
      end
  | Raise e => print m (on_error e)
  end.

Definition add_cover (fs : filesystem) (cover : option string) (m : merger) : merger :=
  match cover with
  | Some cover =>
      if PyStr.truthy cover then
        let cover_path := OsPath.join COVER_FOLDER cover in
        if exists_ fs cover_path
        then try_add fs cover_path ErrorAddingCover m
        else m
      else m
  | None => m
  end.

Definition add_module (fs : filesystem) (m : merger) (filename : string) : merger :=
  let path := OsPath.join UPLOAD_FOLDER filename in
  if exists_ fs path && PyStr.is_pdf_name filename
  then try_add fs path (ErrorMerging filename) m
  else m.

Definition merge_sources (fs : filesystem) (cover : option string) (files : list string) : merger :=
  fold_left (add_module fs) files (add_cover fs cover PdfWriter).

(** [timestamp] is the reading of the clock,
    [utcnow().strftime('%Y%m%d%H%M%S%f')], as a number. *)
Definition export_name (timestamp : N) : string :=
  "proposal_" +:+ pretty timestamp +:+ ".pdf".

(** [export_pdf]: the file system afterwards, the final state of the
    merger and the [export] field of the JSON response. *)
Definition export_pdf (fs : filesystem) (timestamp : N)
    (cover : option string) (files : list string)
    : filesystem * merger * string :=
  let m := merge_sources fs cover files in
  let export_name := export_name timestamp in
  let export_path := OsPath.join EXPORT_FOLDER export_name in
  (write_file fs export_path (write_pdf (writer m)), m, export_name).

(** *** What a run of the merger adds *)

(** The pages the [try] block adds for a path: those read before the
    first exception, none when the reader cannot be made. *)
Definition added (fs : filesystem) (path : string) : list page :=
  match PdfReader fs path with Ok reader => completed reader | Raise _ => [] end.

Definition cover_added (fs : filesystem) (cover : option string) : list page :=
  match cover with
  | Some cover =>
      if PyStr.truthy cover && exists_ fs (OsPath.join COVER_FOLDER cover)
      then added fs (OsPath.join COVER_FOLDER cover) else []
  | None => []
  end.

Definition module_added (fs : filesystem) (filename : string) : list page :=
  if exists_ fs (OsPath.join UPLOAD_FOLDER filename) && PyStr.is_pdf_name filename
  then added fs (OsPath.join UPLOAD_FOLDER filename) else [].

(** *** The export as the specification words it *)

(** The entry of a folder under a name. *)
Definition entry (fs : filesystem) (folder name : string) : option node :=
  fs !! (locate folder ++ [name]).

(** The pages of a PDF that are read: all of them when the document parses,
    those before the error when it fails part-way, none when it cannot be
    opened. *)
Definition readable_pages (data : bytes) : list page :=
  match parse_pdf data with Ok pages => completed pages | Raise _ => [] end.

(** What the entry of a folder gives to the output: the pages read from it
    when it is a file, nothing when the folder has no such file. *)
Definition entry_pages (fs : filesystem) (folder name : string) : list page :=
  match entry fs folder name with
  | Some (File data) => readable_pages data
  | _ => []
  end.

Definition cover_pages (fs : filesystem) (cover : option string) : list page :=
  match cover with
  | Some cover => if PyStr.truthy cover then entry_pages fs COVER_FOLDER cover else []
  | None => []
  end.

Definition module_pages (fs : filesystem) (filename : string) : list page :=
  if PyStr.is_pdf_name filename then entry_pages fs UPLOAD_FOLDER filename else [].

Definition spec_pages (fs : filesystem) (cover : option string)
    (files : list string) : list page :=
  cover_pages fs cover ++ concat (module_pages fs <$> files).

(** The entry is a PDF that parses, to these pages. *)
Definition parses (fs : filesystem) (folder name : string) (pages : list page) : Prop :=
  ∃ data, entry fs folder name = Some (File data)
          ∧ parse_pdf data = Ok (Ok <$> pages).

(** The entry is a PDF that fails part-way: these pages are read, and the
    next turn raises. *)
Definition torn (fs : filesystem) (folder name : string) (pages : list page) : Prop :=
  ∃ data e rest, entry fs folder name = Some (File data)
                 ∧ parse_pdf data = Ok ((Ok <$> pages) ++ Raise e :: rest).

(** The entry is missing, or cannot be opened as a PDF. *)
Definition unusable (fs : filesystem) (folder name : string) : Prop :=
  entry fs folder name = None
  ∨ entry fs folder name = Some Dir
  ∨ ∃ data e, entry fs folder name = Some (File data) ∧ parse_pdf data = Raise e.

(** The document in the exports area under [name], if any. *)
Definition exported (fs : filesystem) (name : string) : option node :=
  fs !! locate (OsPath.join EXPORT_FOLDER name).

(** The modules area: what lies below the Module Store directory. *)
Definition in_modules_area (path : string) : bool :=
  OsPath.inside (locate UPLOAD_FOLDER) (locate path).

End ExportMerger.

(** ** Module Store: upload *)

(** werkzeug: [secure_filename], whose result holds no path separator. *)
Class Werkzeug := {
  secure_filename : string → string;
  secure_filename_flat s : OsPath.components (secure_filename s) = [secure_filename s];
}.

(** An entry of [request.files.getlist('files')]. *)
Record FileStorage := {
  filename : string;
  stream : bytes;
}.

Section Upload.
Context `{Deployment, Werkzeug}.

(** [f"{base}_{counter}{ext}"] *)
Definition numbered (base ext : string) (counter : nat) : string :=
  base +:+ "_" +:+ pretty counter +:+ ext.

(** Whether the [counter]-th numbered name is taken. *)
Definition taken (fs : filesystem) (base ext : string) (counter : nat) : bool :=
  exists_ fs (OsPath.join UPLOAD_FOLDER (numbered base ext counter)).

(** The [while os.path.exists(...)] loop; [None] when [fuel] iterations
    do not reach a free name. *)
Fixpoint find_unique (fuel : nat) (fs : filesystem) (base ext unique : string)
    (counter : nat) : option string :=
  match fuel with
  | O => None
  | S fuel =>
      if exists_ fs (OsPath.join UPLOAD_FOLDER unique)
      then find_unique fuel fs base ext (numbered base ext counter) (counter + 1)
      else Some unique
  end.

(** One turn of the [for f in files] loop. *)
Definition save_upload (fuel : nat) (st : filesystem * list string) (f : FileStorage)
    : option (filesystem * list string) :=
  let '(fs, saved) := st in
  if negb (PyStr.is_pdf_name (filename f)) then Some (fs, saved)
  else
    let filename := secure_filename (filename f) in
    let '(base, ext) := OsPath.splitext filename in
    unique ← find_unique fuel fs base ext filename 1;
    Some (write_file fs (OsPath.join UPLOAD_FOLDER unique) (stream f),
          saved ++ [unique]).

Fixpoint save_all (fuel : nat) (st : filesystem * list string) (files : list FileStorage)
    : option (filesystem * list string) :=
  match files with
  | [] => Some st
  | f :: files => st ← save_upload fuel st f; save_all fuel st files
  end.

(** The JSON response [{'saved': ..., 'all': ...}]. *)
Record upload_response := {
  saved : list string;
  all : list string;
}.

(** [upload_files]: the file system afterwards and the response. *)
Definition upload_files (fuel : nat) (fs : filesystem) (files : list FileStorage)
    : option (filesystem * upload_response) :=
  '(fs, saved) ← save_all fuel (fs, []) files;
  Some (fs, {| saved := saved; all := list_modules fs |}).

End Upload.

(** ** Cover Generator *)

Local Open Scope Qc_scope.

(** Decimal literals of the source, as exact rationals. *)
Definition dec (n : Z) (d : positive) : Qc := Q2Qc (n # d).
Definition int (n : Z) : Qc := Q2Qc (inject_Z n).

(** [reportlab.lib.pagesizes.letter] and [reportlab.lib.units.inch] *)
Definition letter : Qc * Qc := (int 612, int 792).
Definition inch : Qc := int 72.

(** [min(a, b)] of Python: the first of the smallest. *)
Definition py_min (a b : Qc) : Qc := if decide (b < a) then b else a.

Inductive color :=
| HexColor (hex : string)
| white
| black.

(** The calls the program writes on the canvas [c], in the order it writes
    them. *)
Inductive call :=
| setFillColor (c : color)
| rect (x y w h : Qc) (stroke fill : Z)
| drawImage (image : string) (x y w h : Qc)
| saveState
| restoreState
| beginPath
| moveTo (x y : Qc)
| lineTo (x y : Qc)
| close
| fill
| setFont (name : string) (size : Qc)
| drawString (x y : Qc) (text : string)
| drawRightString (x y : Qc) (text : string)
| showPage
| save.

(** The methods reportlab's [Canvas] has.  [moveTo], [lineTo], [close] and
    [fill] are not among them: they are methods of the path object that
    [beginPath()] returns, which the program drops, and looking one of them
    up on the canvas raises [AttributeError]. *)
Definition canvas_method (c : call) : bool :=
  match c with
  | moveTo _ _ | lineTo _ _ | close | fill => false
  | _ => true
  end.

(** The statement [c.method(...)]: the call is made, or the look-up of
    the method raises. *)
Definition statement (c : call) : result call :=
  if canvas_method c then Ok c else Raise AttributeError.

(** The statements of a block that reads an image first: the calls when the
    image is read, the exception of the read otherwise. *)
Definition statements (block : result (list call)) : list (result call) :=
  match block with
  | Ok calls => statement <$> calls
  | Raise e => [Raise e]
  end.

(** reportlab: the width of a string in a font at a size, the pixel size
    [ImageReader(data).getSize()] reports (an exception when the data is no
    image), and the PDF a sequence of canvas calls is saved as. *)
Class Reportlab := {
  stringWidth : string → string → Qc → Qc;
  image_size : bytes → result (positive * positive);
  canvas_pdf : list call → bytes;
}.

(** [datetime]: [strptime(s, fmt)] (an exception when [s] does not match)
    and [strftime(fmt)]. *)
Class Datetime := {
  datetime : Type;
  strptime : string → string → result datetime;
  strftime : datetime → string → string;
}.

Section Cover.
Context `{Deployment, Reportlab, Datetime}.

Definition width : Qc := fst letter.
Definition height : Qc := snd letter.

(** [ImageReader(path).getSize()] *)
Definition getSize (fs : filesystem) (path : string) : result (positive * positive) :=
  data ← read_file fs path; image_size data.

Definition of_pos (p : positive) : Qc := int (Zpos p).

(** Background image, or a grey fill of the upper half. *)
Definition draw_background (fs : filesystem) : result (list call) :=
  let bg_path := OsPath.join STATIC_FOLDER "background.png" in
  if exists_ fs bg_path then
    '(img_width, img_height) ← getSize fs bg_path;
    let aspect := of_pos img_height / of_pos img_width in
    let draw_height := height * dec 65 100 in
    let draw_width := draw_height / aspect in
    let '(draw_width, draw_height) :=
      if decide (draw_width < width) then (width, width * aspect)
      else (draw_width, draw_height) in
    Ok [drawImage bg_path (int 0) (height - draw_height) draw_width draw_height]
  else
    Ok [setFillColor (HexColor GREY);
        rect (int 0) (height * dec 5 10) width (height * dec 5 10) 0 1].

(** Blue angled header bar and bottom-left orange accent bar, as the
    program writes them: the path calls are made on the canvas. *)
Definition draw_bars : list call :=
  [setFillColor (HexColor BRAND_BLUE);
   saveState; beginPath;
   moveTo (int 0) height;
   lineTo width height;
   lineTo width (height - height * dec 25 100);
   lineTo (int 0) (height - height * dec 35 100);
   close; fill; restoreState;
   setFillColor (HexColor ORANGE);
   saveState; beginPath;
   moveTo (int 0) (int 0);
   lineTo (width * dec 3 10) (int 0);
   lineTo (int 0) (height * dec 12 100);
   close; fill; restoreState].

(** The size the logo is drawn at. *)
Definition logo_size (logo_width logo_height : positive) : Qc * Qc :=
  let max_w := width * dec 2 10 in
  let max_h := height * dec 15 100 in
  let scale := py_min (max_w / of_pos logo_width) (max_h / of_pos logo_height) in
  let lw := of_pos logo_width * scale in
  let lh := of_pos logo_height * scale in
  (lw, lh).

(** Logo on top left. *)
Definition draw_logo (fs : filesystem) : result (list call) :=
  let logo_path := OsPath.join STATIC_FOLDER "logo.png" in
  if exists_ fs logo_path then
    '(logo_width, logo_height) ← getSize fs logo_path;
    let '(lw, lh) := logo_size logo_width logo_height in
    Ok [drawImage logo_path (inch * dec 5 10) (height - lh - inch * dec 5 10) lw lh]
  else Ok [].

Definition title_font_size : Qc := int 36.
Definition max_title_width : Qc := width * dec 8 10.

(** One turn of the [for word in title.split()] loop, on the pair
    ([lines], [current_line]). *)
Definition wrap_step (st : list string * string) (word : string)
    : list string * string :=
  let '(lines, current_line) := st in
  let test := PyStr.strip (current_line +:+ " " +:+ word) in
  if decide (stringWidth test "Helvetica-Bold" title_font_size < max_title_width)
  then (lines, test)
  else (lines ++ [current_line], word).

(** The lines the title is wrapped to. *)
Definition wrap_title (title : string) : list string :=
  let '(lines, current_line) := fold_left wrap_step (PyStr.split title) ([], "") in
  if PyStr.truthy current_line then lines ++ [current_line] else lines.

(** The [for line in lines] loop, on the pair (calls so far, [y_pos]). *)
Definition draw_line (st : list call * Qc) (line : string) : list call * Qc :=
  let '(calls, y_pos) := st in
  (calls ++ [drawString (inch * dec 5 10) y_pos line],
   y_pos - title_font_size * dec 12 10).

(** Title text: the calls and the [y_pos] the loop ends with. *)
Definition draw_title (title : string) : list call * Qc :=
  fold_left draw_line (wrap_title title)
    ([setFillColor white; setFont "Helvetica-Bold" title_font_size],
     height - inch * dec 25 10).

(** Prepared for subtitle (client name): the calls and [y_pos] afterwards. *)
Definition draw_prepared (client_name : string) (y_pos : Qc) : list call * Qc :=
  let calls := [setFont "Helvetica" (int 18); setFillColor white] in
  if PyStr.truthy client_name
  then (calls ++ [drawString (inch * dec 5 10) (y_pos - int 10)
                    ("Prepared for " +:+ client_name)],
        y_pos - int 28)
  else (calls, y_pos).

(** Date on right side. *)
Definition month_year (date_str : string) : string :=
  try_except (date_obj ← strptime date_str "%Y-%m-%d";
              Ok (strftime date_obj "%B %Y"))
             (λ _, date_str).

Definition draw_date (date_str : string) : list call :=
  if PyStr.truthy date_str
  then [setFont "Helvetica" (int 16); setFillColor (HexColor BRAND_BLUE);
        drawRightString (width - inch * dec 5 10) (height * dec 3 10) (month_year date_str)]
  else [].

(** Presented to / by at bottom. *)
Definition draw_presented (client_name created_by : string) : list call :=
  [setFont "Helvetica" (int 12); setFillColor (HexColor BRAND_BLUE)] ++
  (if PyStr.truthy client_name
   then [drawString (inch * dec 5 10) (inch * dec 7 10) "Presented to";
         setFont "Helvetica-Bold" (int 16); setFillColor black;
         drawString (inch * dec 5 10) (inch * dec 5 10) client_name]
   else []) ++
  (if PyStr.truthy created_by
   then [setFont "Helvetica" (int 12); setFillColor (HexColor BRAND_BLUE);
         drawRightString (width - inch * dec 5 10) (inch * dec 7 10) "Presented by";
         setFont "Helvetica-Bold" (int 16); setFillColor black;
         drawRightString (width - inch * dec 5 10) (inch * dec 5 10) created_by]
   else []).

(** The text part of the page, from the title down. *)
Definition draw_text (title client_name created_by date_str : string) : list call :=
  let '(calls, y_pos) := draw_title title in
  let '(prepared, y_pos) := draw_prepared client_name y_pos in
  calls ++ prepared ++ draw_date date_str
        ++ draw_presented client_name created_by.

(** The statements of [generate_cover_pdf] on the canvas, in order. *)
Definition draw_cover (fs : filesystem)
    (title client_name created_by date_str : string) : list (result call) :=
  statements (draw_background fs)
  ++ (statement <$> draw_bars)
  ++ statements (draw_logo fs)
  ++ (statement <$> draw_text title client_name created_by date_str)
  ++ (statement <$> [showPage; save]).

Definition cover_name (timestamp : N) : string :=
  "cover_" +:+ pretty timestamp +:+ ".pdf".

(** [generate_cover_pdf]: the file system afterwards and the filename of
    the generated cover.  The canvas writes its file in [c.save()], the last
    statement: a run that an exception ends writes nothing. *)
Definition generate_cover_pdf (fs : filesystem) (timestamp : N)
    (title client_name created_by date_str : string)
    : result (filesystem * string) :=
  let filename := cover_name timestamp in
  let path := OsPath.join COVER_FOLDER filename in
  let run := draw_cover fs title client_name created_by date_str in
  match raised run with
  | Some e => Raise e
  | None => Ok (write_file fs path (canvas_pdf (completed run)), filename)
  end.

(** [data.get(key, default)] on the JSON object of the request. *)
Definition get (data : gmap string string) (key fallback : string) : string :=
  default fallback (data !! key).

(** The route [/generate_cover]. *)
Definition generate_cover (fs : filesystem) (timestamp : N)
    (data : gmap string string) : result (filesystem * string) :=
  let title := get data "title" "Proposal" in
  let client_name := get data "client_name" "" in
  let created_by := get data "created_by" "" in
  let date_str := get data "date" "" in
  generate_cover_pdf fs timestamp title client_name created_by date_str.

End Cover.

(** ** The title wrap as the specification words it *)

Section CoverSpec.
Context `{Reportlab}.

(** Greedy line breaking: [current] is the line being filled. *)
Definition extend (current word : string) : string :=
  if PyStr.truthy current then current +:+ " " +:+ word else word.

(** A line being filled: empty, or starting with a character that is no
    space. *)
Definition tidy (line : string) : Prop :=
  match line with
  | "" => True
  | String c _ => PyStr.isspace c = false
  end.

Definition fits (line : string) : Prop :=
  stringWidth line "Helvetica-Bold" title_font_size < max_title_width.

#[global] Instance fits_dec line : Decision (fits line).
Proof. unfold fits. apply _. Defined.

Fixpoint greedy (current : string) (words : list string) : list string :=
  match words with
  | [] => if PyStr.truthy current then [current] else []
  | word :: words =>
      if decide (fits (extend current word))
      then greedy (extend current word) words
      else current :: greedy word words
  end.

End CoverSpec.

Local Close Scope Qc_scope.

(** ** Notions the further properties are stated with *)

Section Notions.
Context `{Deployment, Pypdf}.

(** The names of the request that pass the [.pdf] test. *)
Definition pdf_entries (files : list FileStorage) : list FileStorage :=
  filter (λ f, PyStr.is_pdf_name (filename f) = true) files.

(** An existing path on which the [try] block raises: [PdfReader] does, or
    a turn of the loop over the pages. *)
Definition unreadable (fs : filesystem) (path : string) : bool :=
  match PdfReader fs path with
  | Ok reader => bool_decide (is_Some (raised reader))
  | Raise _ => true
  end.

(** What the merger keeps true of its record of opened paths and of its
    log: every opened path exists, and the log has one line for each
    opened path that did not parse. *)
Definition tidy_merger (fs : filesystem) (m : merger) : Prop :=
  Forall (λ path, exists_ fs path = true) (opened m)
  ∧ length (stdout m)
    = length (filter (λ path, unreadable fs path = true) (opened m)).

End Notions.

(** ** A concrete deployment and concrete libraries, for examples *)

Module Demo.

Definition deployment : Deployment := {|
  cwd := ["srv"; "app"];
  app_dir := "/srv/app";
  BRAND_BLUE := "#0084a9";
  ORANGE := "#fc9a2d";
  GREY := "#f7f7f7";
|}.

(** A toy PDF format: the byte [%] followed by one byte per page; the
    byte [ee] stands for a page that cannot be read. *)
Definition read_page (b : Byte.byte) : result Byte.byte :=
  if Byte.eqb b Byte.xee then Raise PdfReadError else Ok b.

Definition pypdf : Pypdf := {|
  page := Byte.byte;
  parse_pdf data :=
    match data with
    | Byte.x25 :: pages => Ok (read_page <$> pages)
    | _ => Raise PdfReadError
    end;
  write_pdf pages := Byte.x25 :: pages;
|}.

Definition safe_char (c : ascii) : bool :=
  let n := nat_of_ascii c in
  ((48 <=? n)%nat && (n <=? 57)%nat) || ((65 <=? n)%nat && (n <=? 90)%nat)
  || ((97 <=? n)%nat && (n <=? 122)%nat)
  || (n =? 95)%nat || (n =? 46)%nat || (n =? 45)%nat.

(** Keeps the characters [secure_filename] allows. *)
Fixpoint keep_safe (s : string) : string :=
  match s with
  | "" => ""
  | String c s' => if safe_char c then String c (keep_safe s') else keep_safe s'
  end.

Definition werkzeug : Werkzeug.
Proof.
  refine {| secure_filename := keep_safe |}.
  intros s. induction s as [|c s IH]; [done|]. simpl.
  destruct (safe_char c) eqn:Hc; [|done]. simpl.
  rewrite IH. case_bool_decide as Hsep; [|done].
  subst c. discriminate Hc.
Defined.

(** Widths of some Helvetica-Bold glyphs, in thousandths of the font
    size, from the font's standard metrics; the glyphs not listed are given
    556. *)
Definition glyph_width (c : ascii) : Z :=
  (match c with
   | " "%char => 278
   | "A"%char => 722
   | "B"%char => 722
   | "W"%char => 944
   | "i"%char => 278
   | "l"%char => 278
   | _ => 556
   end)%Z.

Fixpoint glyphs_width (s : string) : Z :=
  match s with
  | "" => 0%Z
  | String c s' => (glyph_width c + glyphs_width s')%Z
  end.

(** A toy image format: one byte of width, one byte of height. *)
Definition reportlab : Reportlab := {|
  stringWidth s _ size := (int (glyphs_width s) * size / int 1000)%Qc;
  image_size data :=
    match data with
    | [w; h] =>
        match Byte.to_N w, Byte.to_N h with
        | Npos w, Npos h => Ok (w, h)
        | _, _ => Raise ImageError
        end
    | _ => Raise ImageError
    end;
  canvas_pdf _ := [Byte.x25; Byte.x01];
|}.

Definition digit (c : ascii) : option Z :=
  let n := nat_of_ascii c in
  if (48 <=? n)%nat && (n <=? 57)%nat then Some (Z.of_nat n - 48)%Z else None.

Definition month_name (m : Z) : string :=
  match m with
  | 1 => "January" | 2 => "February" | 3 => "March" | 4 => "April"
  | 5 => "May" | 6 => "June" | 7 => "July" | 8 => "August"
  | 9 => "September" | 10 => "October" | 11 => "November" | _ => "December"
  end%Z.

(** Dates written with four, two and two digits; the day is not checked
    against the length of the month. *)
Definition parse_date (s : string) : result (Z * Z * Z) :=
  match s with
  | String y1 (String y2 (String y3 (String y4 (String "-"
      (String m1 (String m2 (String "-" (String d1 (String d2 ""))))))))) =>
      match digit y1, digit y2, digit y3, digit y4,
            digit m1, digit m2, digit d1, digit d2 with
      | Some a, Some b, Some c, Some d, Some e, Some f, Some g, Some h =>
          let y := (1000 * a + 100 * b + 10 * c + d)%Z in
          let m := (10 * e + f)%Z in
          let dd := (10 * g + h)%Z in
          if bool_decide (1 ≤ y)%Z && bool_decide (1 ≤ m ≤ 12)%Z
             && bool_decide (1 ≤ dd ≤ 31)%Z
          then Ok (y, m, dd) else Raise ValueError
      | _, _, _, _, _, _, _, _ => Raise ValueError
      end
  | _ => Raise ValueError
  end.

Definition datetime_ : Datetime := {|
  datetime := Z * Z * Z;
  strptime s _ := parse_date s;
  strftime d _ := let '(y, m, _) := d in month_name m +:+ " " +:+ pretty y;
|}.

(** A fresh installation: the three folders and nothing else. *)
Definition fresh : filesystem := @startup deployment ∅.

(** A store with two modules, a cover, and a PDF elsewhere on the disk. *)
Definition store : filesystem :=
  <[["srv"; "app"; "uploads"; "a.pdf"] := File [Byte.x25; Byte.x01; Byte.x02]]>
  (<[["srv"; "app"; "uploads"; "b.pdf"] := File [Byte.x25; Byte.x03; Byte.x04; Byte.x05]]>
  (<[["srv"; "app"; "uploads"; "covers"; "cover_X.pdf"] := File [Byte.x25; Byte.x00]]>
  (<[["srv"; "app"; "uploads"; "broken.pdf"] := File [Byte.x00]]>
  (<[["etc"; "secret.pdf"] := File [Byte.x25; Byte.xff]]> fresh)))).

Definition clock : N := 20240301120000000001.

(** The fresh installation with a logo of 10 by 10 pixels. *)
Definition branded : filesystem :=
  <[["srv"; "app"; "static"; "logo.png"] := File [Byte.x0a; Byte.x0a]]> fresh.

Definition long_title : string := "Website Redesign Proposal for Acme".

(** Upload entries. *)
Definition a_pdf : FileStorage := {| filename := "a.pdf"; stream := [Byte.x25; Byte.x01] |}.
Definition b_pdf : FileStorage := {| filename := "b.pdf"; stream := [Byte.x25; Byte.x02] |}.
Definition notes_txt : FileStorage := {| filename := "notes.txt"; stream := [Byte.x6e] |}.
Definition torn_pdf : FileStorage :=
  {| filename := "torn.pdf"; stream := [Byte.x25; Byte.x07; Byte.xee; Byte.x08] |}.

(** A title of one word wider than a line. *)
Definition wide_title : string := "WWWWWWWWWWWWWWWW of W".

(** The store with one more module, whose second page cannot be read. *)
Definition worn : filesystem :=
  <[["srv"; "app"; "uploads"; "torn.pdf"] := File [Byte.x25; Byte.x07; Byte.xee; Byte.x08]]>
  store.

End Demo.

(** * Properties *)

(** ** Paths and the store *)

Section PathProperties.

Lemma app_String c a b : String c a +:+ b = String c (a +:+ b).
Proof. done. Qed.

Lemma app_empty_l b : "" +:+ b = b.
Proof. done. Qed.

Lemma app_empty_r a : a +:+ "" = a.
Proof. induction a as [|c a IH]; [done|]. by rewrite app_String, IH. Qed.

Lemma app_assoc_string a b c : (a +:+ b) +:+ c = a +:+ (b +:+ c).
Proof. induction a as [|x a IH]; [done|]. by rewrite !app_String, IH. Qed.

Lemma components_nonempty s : OsPath.components s ≠ [].
Proof.
  destruct s as [|c s]; simpl; [done|].
  case_bool_decide; [done|]. by destruct (OsPath.components s).
Qed.

Lemma flat_String c s : flat (String c s) → c ≠ OsPath.sep ∧ flat s.
Proof.
  unfold flat. simpl. case_bool_decide as Hc; [done|].
  destruct (OsPath.components s) as [|w ws] eqn:Hs; [by destruct (components_nonempty s)|].
  intros [= -> ->]. done.
Qed.

Lemma flat_cons c s : c ≠ OsPath.sep → flat s → flat (String c s).
Proof.
  unfold flat. intros Hc Hs. simpl. rewrite bool_decide_eq_false_2 by done.
  by rewrite Hs.
Qed.

Lemma flat_app a b : flat (a +:+ b) ↔ flat a ∧ flat b.
Proof.
  induction a as [|c a IH].
  - rewrite app_empty_l. unfold flat at 2. simpl. tauto.
  - rewrite app_String. split.
    + intros [Hc [Ha Hb]%IH]%flat_String. split; [by apply flat_cons|done].
    + intros [[Hc Ha]%flat_String Hb]. apply flat_cons; [done|]. by apply IH.
Qed.

Lemma flat_not_startswith_sep s : flat s → OsPath.startswith_sep s = false.
Proof.
  destruct s as [|c s]; [done|]. intros [Hc _]%flat_String. simpl.
  by apply bool_decide_eq_false.
Qed.

Lemma components_sep a b :
  OsPath.components (a +:+ String OsPath.sep b)
  = OsPath.components a ++ OsPath.components b.
Proof.
  induction a as [|c a IH]; [done|]. rewrite app_String. simpl.
  case_bool_decide; [by rewrite IH|]. rewrite IH.
  destruct (OsPath.components a) eqn:Ha; [by destruct (components_nonempty a)|done].
Qed.

Lemma components_snoc a b :
  flat b →
  ∃ l w, OsPath.components a = l ++ [w] ∧ OsPath.components (a +:+ b) = l ++ [w +:+ b].
Proof.
  intros Hb. induction a as [|c a (l & w & Ha & Hab)].
  - exists [], "". by rewrite app_empty_l, Hb.
  - rewrite app_String. simpl. case_bool_decide.
    + exists ("" :: l), w. by rewrite Ha, Hab.
    + rewrite Ha, Hab. destruct l as [|x l]; simpl.
      * by exists [], (String c w).
      * by exists (String c x :: l), w.
Qed.

Lemma endswith_sep_components a :
  OsPath.endswith_sep a = true →
  ∃ l, l ≠ [] ∧ OsPath.components a = l ++ [""].
Proof.
  induction a as [|c a IH]; [done|]. simpl. destruct a as [|c' a].
  - intros ->%bool_decide_eq_true. by exists [""].
  - intros Hend. destruct (IH Hend) as (l & Hl & ->). case_bool_decide.
    + by exists ("" :: l).
    + destruct l as [|x l]; [done|]. by exists (String c x :: l).
Qed.

Lemma startswith_sep_app a b :
  a ≠ "" → OsPath.startswith_sep (a +:+ b) = OsPath.startswith_sep a.
Proof. by destruct a. Qed.

Lemma walk_plain here name : plain name → OsPath.walk here name = here ++ [name].
Proof.
  intros (_ & H1 & H2 & H3). unfold OsPath.walk.
  by rewrite !bool_decide_eq_false_2.
Qed.

(** Joining a plain name to a directory denotes the entry of that name
    in it. *)
Lemma resolve_join cwd dir name :
  plain name →
  OsPath.resolve cwd (OsPath.join dir name) = OsPath.resolve cwd dir ++ [name].
Proof.
  intros Hplain. pose proof Hplain as (Hflat & _).
  unfold OsPath.join. rewrite (flat_not_startswith_sep _ Hflat).
  destruct (decide (dir = "")) as [->|Hdir_ne].
  { simpl. rewrite app_empty_l. unfold OsPath.resolve.
    rewrite (flat_not_startswith_sep _ Hflat), Hflat. simpl.
    by apply walk_plain. }
  assert (PyStr.truthy dir = true) as -> by (by destruct dir).
  cbn [negb orb]. unfold OsPath.resolve.
  destruct (OsPath.endswith_sep dir) eqn:Hend.
  - rewrite startswith_sep_app by done.
    destruct (components_snoc dir name Hflat) as (l & w & Hdir & Hjoin).
    apply endswith_sep_components in Hend as (l' & _ & Hdir').
    rewrite Hdir in Hdir'. apply app_inj_tail in Hdir' as [<- ->].
    rewrite Hdir, Hjoin, app_empty_l, !fold_left_app. simpl.
    by rewrite walk_plain.
  - rewrite startswith_sep_app by done.
    change ("/" +:+ name) with (String OsPath.sep name).
    rewrite components_sep, Hflat, fold_left_app. simpl.
    by rewrite walk_plain.
Qed.

End PathProperties.

Section StoreProperties.
Context `{Deployment}.

Lemma locate_join dir name :
  plain name → locate (OsPath.join dir name) = locate dir ++ [name].
Proof. apply resolve_join. Qed.

Lemma exists_true fs p : exists_ fs p = true ↔ is_Some (fs !! locate p).
Proof. unfold exists_. by rewrite bool_decide_eq_true. Qed.

Lemma exists_false fs p : exists_ fs p = false ↔ fs !! locate p = None.
Proof. unfold exists_. by rewrite bool_decide_eq_false, eq_None_not_Some. Qed.

Lemma exists_write_file fs p data q :
  exists_ (write_file fs p data) q
  = bool_decide (locate p = locate q) || exists_ fs q.
Proof.
  unfold exists_, write_file.
  destruct (decide (locate p = locate q)) as [Heq|Hne].
  - rewrite Heq, lookup_insert_eq.
    rewrite (bool_decide_eq_true_2 (locate q = locate q)) by done.
    by apply bool_decide_eq_true.
  - rewrite lookup_insert_ne by done. by rewrite (bool_decide_eq_false_2 _ Hne).
Qed.

(** Writing to a path that does not exist keeps every existing entry. *)
Lemma write_file_fresh fs p data loc entry :
  exists_ fs p = false → fs !! loc = Some entry →
  write_file fs p data !! loc = Some entry.
Proof.
  intros Hfree%exists_false Hloc. unfold write_file.
  rewrite lookup_insert_ne; [done|]. congruence.
Qed.

Lemma entry_of_Some d p name : entry_of d p = Some name ↔ p = d ++ [name].
Proof.
  unfold entry_of. split.
  - destruct (list.last p) as [n|]; [|done]. case_bool_decide; naive_solver.
  - intros ->. rewrite last_snoc. by rewrite bool_decide_eq_true_2.
Qed.

Lemma elem_of_listdir fs d name :
  name ∈ listdir fs d ↔ is_Some (fs !! (locate d ++ [name])).
Proof.
  unfold listdir. rewrite list_elem_of_omap. split.
  - intros (p & Hp & ->%entry_of_Some). by apply elem_of_dom, elem_of_elements.
  - intros Hentry. exists (locate d ++ [name]). split; [|by apply entry_of_Some].
    by apply elem_of_elements, elem_of_dom.
Qed.

Lemma NoDup_listdir fs d : NoDup (listdir fs d).
Proof.
  unfold listdir. generalize (NoDup_elements (dom fs)).
  induction 1 as [|p l Hp Hl IH]; simpl; [constructor|].
  destruct (entry_of (locate d) p) as [name|] eqn:Hname; [|done].
  constructor; [|done]. rewrite list_elem_of_omap.
  intros (p' & Hp' & Hname'). apply entry_of_Some in Hname, Hname'. congruence.
Qed.

Lemma collect_pdf_filter l acc :
  fold_left (λ files fname,
               if PyStr.is_pdf_name fname then files ++ [fname] else files) l acc
  = acc ++ filter (λ name, PyStr.is_pdf_name name = true) l.
Proof.
  revert acc. induction l as [|x l IH]; intros acc; simpl; [by rewrite app_nil_r|].
  rewrite IH, filter_cons. destruct (PyStr.is_pdf_name x) eqn:Hx.
  - rewrite decide_True by done. by rewrite <- app_assoc.
  - rewrite decide_False by congruence. done.
Qed.

Lemma list_modules_filter fs :
  list_modules fs
  = filter (λ name, PyStr.is_pdf_name name = true) (sorted (listdir fs UPLOAD_FOLDER)).
Proof. unfold list_modules. by rewrite collect_pdf_filter. Qed.

Lemma elem_of_list_modules fs name :
  name ∈ list_modules fs
  ↔ is_Some (fs !! (locate UPLOAD_FOLDER ++ [name])) ∧ PyStr.is_pdf_name name = true.
Proof.
  rewrite list_modules_filter, list_elem_of_filter. unfold sorted.
  rewrite merge_sort_Permutation, elem_of_listdir. tauto.
Qed.

Lemma StronglySorted_filter {A} (R : relation A) (P : A → Prop)
    `{∀ x, Decision (P x)} l :
  StronglySorted R l → StronglySorted R (filter P l).
Proof.
  induction 1 as [|x l Hl IH Hx]; [constructor|].
  rewrite filter_cons. case_decide; [|done].
  constructor; [done|]. rewrite list.Forall_forall in *.
  intros y [_ Hy]%list_elem_of_filter. by apply Hx.
Qed.

Lemma list_modules_sorted fs : StronglySorted String.le (list_modules fs).
Proof.
  rewrite list_modules_filter. apply StronglySorted_filter.
  apply StronglySorted_merge_sort; apply _.
Qed.

Lemma NoDup_list_modules fs : NoDup (list_modules fs).
Proof.
  rewrite list_modules_filter. apply list.NoDup_filter. unfold sorted.
  rewrite merge_sort_Permutation. apply NoDup_listdir.
Qed.

End StoreProperties.


(** ** Strings *)

Section StringProperties.

Lemma length_app_string a b :
  String.length (a +:+ b) = String.length a + String.length b.
Proof. induction a as [|c a IH]; [done|]. rewrite app_String. simpl. by rewrite IH. Qed.

Lemma app_inj_r a b e : a +:+ e = b +:+ e → a = b.
Proof.
  revert b. induction a as [|c a IH]; intros [|c' b] Heq; [done| | |].
  - apply (f_equal String.length) in Heq.
    rewrite app_empty_l, app_String in Heq. simpl in Heq.
    rewrite length_app_string in Heq. lia.
  - apply (f_equal String.length) in Heq.
    rewrite app_empty_l, app_String in Heq. simpl in Heq.
    rewrite length_app_string in Heq. lia.
  - rewrite !app_String in Heq. injection Heq as -> Heq. f_equal. by apply IH.
Qed.

Lemma substring_all p : String.substring 0 (String.length p) p = p.
Proof. induction p as [|c p IH]; [done|]. simpl. by rewrite IH. Qed.

Lemma substring_split p n :
  String.substring 0 n p +:+ String.substring n (String.length p - n) p = p.
Proof.
  revert n. induction p as [|c p IH]; intros [|n]; simpl; try done.
  - by rewrite app_empty_l, substring_all.
  - by rewrite app_String, IH.
Qed.

Lemma splitext_app p : (OsPath.splitext p).1 +:+ (OsPath.splitext p).2 = p.
Proof.
  unfold OsPath.splitext. case_bool_decide; [|by rewrite app_empty_r].
  destruct (OsPath.all_dots _); simpl; [by rewrite app_empty_r|].
  apply substring_split.
Qed.

Lemma flat_pretty_N_go x s : flat s → flat (pretty_N_go x s).
Proof.
  revert s. induction (N.lt_wf_0 x) as [x _ IH]; intros s Hs.
  assert (x = 0 ∨ 0 < x)%N as [->|Hpos] by lia.
  - by rewrite pretty_N_go_0.
  - rewrite pretty_N_go_step by done. apply IH; [by apply N.div_lt|].
    apply flat_cons; [|done]. unfold pretty_N_char. by repeat case_match.
Qed.

Lemma flat_pretty_N (x : N) : flat (pretty x).
Proof.
  unfold pretty, pretty_N. case_decide; [done|]. by apply flat_pretty_N_go.
Qed.

Lemma flat_pretty_nat (n : nat) : flat (pretty n).
Proof. apply flat_pretty_N. Qed.

Lemma pretty_nat_nonempty (n : nat) : pretty n ≠ "".
Proof.
  unfold pretty, pretty_nat, pretty, pretty_N. case_decide; [done|].
  assert (∀ x s, s ≠ "" → pretty_N_go x s ≠ "") as Hgo.
  { intros x. induction (N.lt_wf_0 x) as [x _ IH]; intros s Hs.
    assert (x = 0 ∨ 0 < x)%N as [->|Hpos] by lia; [by rewrite pretty_N_go_0|].
    rewrite pretty_N_go_step by done. apply IH; [by apply N.div_lt|done]. }
  rewrite pretty_N_go_step by lia. by apply Hgo.
Qed.

End StringProperties.

(** ** Export Merger *)

Section ExportProperties.
Context `{Deployment, Pypdf}.

Lemma completed_pages {A} (values : list A) : completed (Ok <$> values) = values.
Proof.
  induction values as [|a values IH]; [done|].
  rewrite fmap_cons. cbn [completed]. by rewrite IH.
Qed.

Lemma raised_pages {A} (values : list A) : raised (Ok <$> values) = None.
Proof. induction values as [|a values IH]; [done|]. by rewrite fmap_cons. Qed.

Lemma completed_torn {A} (values : list A) e rest :
  completed ((Ok <$> values) ++ Raise e :: rest) = values.
Proof.
  induction values as [|a values IH]; [done|].
  rewrite fmap_cons, <- app_comm_cons. cbn [completed]. by rewrite IH.
Qed.

Lemma raised_torn {A} (values : list A) e rest :
  raised ((Ok <$> values) ++ Raise e :: rest) = Some e.
Proof.
  induction values as [|a values IH]; [done|]. by rewrite fmap_cons, <- app_comm_cons.
Qed.

(** A run raises nowhere exactly when every turn of it gives a value. *)
Lemma raised_None {A} (run : list (result A)) :
  raised run = None ↔ ∃ values, run = Ok <$> values.
Proof.
  split.
  - induction run as [|[a|e] run IH]; simpl; intros Hrun.
    + by exists [].
    + destruct (IH Hrun) as [values ->]. by exists (a :: values).
    + done.
  - intros [values ->]. apply raised_pages.
Qed.

(** The loop over the pages adds the pages read before the first
    exception, and ends with that exception. *)
Lemma add_pages_completed pages : ∀ m,
  add_pages m pages
  = (Merger (writer m ++ completed pages) (opened m) (stdout m), raised pages).
Proof.
  induction pages as [|[page|e] pages IH]; intros m; simpl.
  - rewrite app_nil_r. by destruct m.
  - rewrite IH. simpl. by rewrite <- app_assoc.
  - rewrite app_nil_r. by destruct m.
Qed.

Lemma writer_try_add fs path on_error m :
  writer (try_add fs path on_error m) = writer m ++ added fs path.
Proof.
  unfold try_add, added. destruct (PdfReader fs path) as [pages|e]; simpl.
  - rewrite add_pages_completed. by destruct (raised pages).
  - by rewrite app_nil_r.
Qed.

Lemma writer_add_cover fs cover m :
  writer (add_cover fs cover m) = writer m ++ cover_added fs cover.
Proof.
  destruct cover as [c|]; simpl; [|by rewrite app_nil_r].
  destruct (PyStr.truthy c); simpl; [|by rewrite app_nil_r].
  destruct (exists_ fs _); [apply writer_try_add|by rewrite app_nil_r].
Qed.

Lemma writer_add_module fs m filename :
  writer (add_module fs m filename) = writer m ++ module_added fs filename.
Proof.
  unfold add_module, module_added.
  destruct (exists_ fs _ && PyStr.is_pdf_name filename);
    [apply writer_try_add|by rewrite app_nil_r].
Qed.

Lemma writer_add_modules fs files m :
  writer (fold_left (add_module fs) files m)
  = writer m ++ concat (module_added fs <$> files).
Proof.
  revert m. induction files as [|f files IH]; intros m; simpl.
  - by rewrite app_nil_r.
  - by rewrite IH, writer_add_module, <- app_assoc.
Qed.

Lemma writer_merge_sources fs cover files :
  writer (merge_sources fs cover files)
  = cover_added fs cover ++ concat (module_added fs <$> files).
Proof.
  unfold merge_sources. by rewrite writer_add_modules, writer_add_cover.
Qed.


Lemma PdfReader_exists fs path pages :
  PdfReader fs path = Ok pages → exists_ fs path = true.
Proof.
  unfold PdfReader, read_file, exists_. intros Hread.
  apply bool_decide_eq_true. destruct (fs !! locate path); [by eexists|done].
Qed.

(** For a plain name, the path the program joins is the entry of the
    folder, and what the [try] block adds under the existence test is what
    the entry gives. *)
Lemma added_entry fs folder name :
  plain name →
  (if exists_ fs (OsPath.join folder name) then added fs (OsPath.join folder name) else [])
  = entry_pages fs folder name.
Proof.
  intros Hname. unfold exists_, added, PdfReader, read_file, entry_pages, entry.
  rewrite locate_join by done.
  destruct (fs !! (locate folder ++ [name])) as [[|data]|] eqn:Hentry.
  - by rewrite bool_decide_eq_true_2 by by eexists.
  - by rewrite bool_decide_eq_true_2 by by eexists.
  - rewrite bool_decide_eq_false_2; [done|]. by intros [? ?].
Qed.

Lemma module_added_plain fs filename :
  plain filename → module_added fs filename = module_pages fs filename.
Proof.
  intros Hname. unfold module_added, module_pages.
  rewrite <- (added_entry fs UPLOAD_FOLDER filename) by done.
  by destruct (exists_ fs _), (PyStr.is_pdf_name filename).
Qed.

Lemma cover_added_plain fs cover :
  (∀ c, cover = Some c → PyStr.truthy c = true → plain c) →
  cover_added fs cover = cover_pages fs cover.
Proof.
  intros Hcover. destruct cover as [c|]; [|done]. simpl.
  destruct (PyStr.truthy c) eqn:Hc; [|done]. simpl.
  by apply added_entry, Hcover.
Qed.

Lemma modules_added_plain fs files :
  Forall plain files → module_added fs <$> files = module_pages fs <$> files.
Proof.
  induction 1 as [|f files Hf _ IH]; [done|].
  by rewrite !fmap_cons, IH, module_added_plain.
Qed.

Lemma entry_pages_parses fs folder name pages :
  parses fs folder name pages → entry_pages fs folder name = pages.
Proof.
  intros (data & Hentry & Hparse). unfold entry_pages, readable_pages.
  by rewrite Hentry, Hparse, completed_pages.
Qed.

Lemma entry_pages_torn fs folder name pages :
  torn fs folder name pages → entry_pages fs folder name = pages.
Proof.
  intros (data & e & rest & Hentry & Hparse). unfold entry_pages, readable_pages.
  by rewrite Hentry, Hparse, completed_torn.
Qed.

Lemma entry_pages_unusable fs folder name :
  unusable fs folder name → entry_pages fs folder name = [].
Proof.
  unfold entry_pages, readable_pages.
  intros [->|[->|(data & e & -> & ->)]]; done.
Qed.


Lemma exported_export_pdf fs timestamp cover files :
  exported (export_pdf fs timestamp cover files).1.1 (export_name timestamp)
  = Some (File (write_pdf (writer (merge_sources fs cover files)))).
Proof. unfold exported, export_pdf, write_file. simpl. apply lookup_insert_eq. Qed.

Lemma export_name_plain timestamp : plain (export_name timestamp).
Proof.
  unfold export_name. split; [|done].
  rewrite !flat_app. split_and!; [done|apply flat_pretty_N|done].
Qed.

(** The export is an entry of the exports folder. *)
Lemma export_in_exports timestamp :
  locate (OsPath.join EXPORT_FOLDER (export_name timestamp))
  = locate EXPORT_FOLDER ++ [export_name timestamp].
Proof. apply locate_join, export_name_plain. Qed.

(** C1, as amended. For a cover name and module names that are plain
    names, the exported document holds the pages read from the cover (when
    it is given and the covers area has it) followed by the pages read from
    every listed module that the modules area has under a name ending in
    [.pdf], in the order of the list.  The pages read from a source are all
    its pages when it parses, none when it is missing or cannot be opened,
    and the pages before the error when it fails part-way.  A one-page cover
    with a two-page and a three-page module, all parsing, gives six pages in
    that order. *)
Theorem export_page_sequence fs timestamp cover files :
  (∀ c, cover = Some c → PyStr.truthy c = true → plain c) →
  Forall plain files →
  let '(fs', m, name) := export_pdf fs timestamp cover files in
  writer m = spec_pages fs cover files
  ∧ exported fs' name = Some (File (write_pdf (spec_pages fs cover files)))
  ∧ (∀ folder source pages,
       (parses fs folder source pages → entry_pages fs folder source = pages)
       ∧ (torn fs folder source pages → entry_pages fs folder source = pages)
       ∧ (unusable fs folder source → entry_pages fs folder source = []))
  ∧ ∀ c a1 a2 b1 b2 b3,
      cover = Some "cover_X.pdf" →
      files = ["a.pdf"; "b.pdf"] →
      parses fs COVER_FOLDER "cover_X.pdf" [c] →
      parses fs UPLOAD_FOLDER "a.pdf" [a1; a2] →
      parses fs UPLOAD_FOLDER "b.pdf" [b1; b2; b3] →
      writer m = [c; a1; a2; b1; b2; b3].
Proof.
  intros Hcover Hfiles.
  pose proof (exported_export_pdf fs timestamp cover files) as Hout.
  unfold export_pdf in *. simpl in Hout.
  assert (writer (merge_sources fs cover files) = spec_pages fs cover files) as Hpages.
  { rewrite writer_merge_sources. unfold spec_pages.
    by rewrite cover_added_plain, modules_added_plain. }
  rewrite Hpages in *. split_and!; [done..| |].
  - intros folder source pages. split_and!.
    + apply entry_pages_parses.
    + apply entry_pages_torn.
    + apply entry_pages_unusable.
  - intros c a1 a2 b1 b2 b3 -> -> Hc Ha Hb.
    unfold spec_pages, module_pages. simpl.
    by rewrite (entry_pages_parses _ _ _ _ Hc), (entry_pages_parses _ _ _ _ Ha),
      (entry_pages_parses _ _ _ _ Hb).
Qed.


End ExportProperties.

Module ExportExamples.
Import Demo.
#[local] Existing Instances deployment pypdf.

(** C1, counterexample. The module [torn.pdf] does not parse, and the page
    read before the error is in the export all the same. *)
Lemma torn_module_page_kept :
  (∀ pages, ¬ parses worn UPLOAD_FOLDER "torn.pdf" pages)
  ∧ writer (export_pdf worn clock None ["torn.pdf"]).1.2 = [Byte.x07].
Proof.
  split; [|reflexivity].
  intros pages (data & Hentry & Hparse).
  assert (data = [Byte.x25; Byte.x07; Byte.xee; Byte.x08]) as ->.
  { vm_compute in Hentry. congruence. }
  vm_compute in Hparse. by destruct pages as [|p [|q pages]].
Qed.

Lemma export_page_sequence_witness :
  writer (export_pdf store clock (Some "cover_X.pdf") ["a.pdf"; "b.pdf"]).1.2
  = [Byte.x00; Byte.x01; Byte.x02; Byte.x03; Byte.x04; Byte.x05].
Proof.
  assert (∀ c, Some "cover_X.pdf" = Some c → PyStr.truthy c = true → plain c) as Hcover.
  { intros c [= <-] _. by vm_compute. }
  assert (Forall plain ["a.pdf"; "b.pdf"]) as Hfiles.
  { repeat constructor; by vm_compute. }
  pose proof (export_page_sequence store clock (Some "cover_X.pdf") ["a.pdf"; "b.pdf"]
                Hcover Hfiles) as Hexport.
  destruct (export_pdf _ _ _ _) as [[fs' m] name].
  destruct Hexport as (_ & _ & _ & Hsix).
  apply Hsix; [reflexivity..| | |]; eexists; (split; [reflexivity|reflexivity]).
Defined.



(** C3. A module filename that is an absolute path, or climbs out with
    [..], makes the merger open a file outside the modules area and copy
    its pages into the export. *)
Theorem export_reads_outside_modules_area :
  let '(_, m, _) := export_pdf store clock None ["/etc/secret.pdf"] in
  opened m = ["/etc/secret.pdf"]
  ∧ in_modules_area "/etc/secret.pdf" = false
  ∧ writer m = [Byte.xff]
  ∧ let '(_, m', _) := export_pdf store clock None ["../../../etc/secret.pdf"] in
    opened m' = ["/srv/app/uploads/../../../etc/secret.pdf"]
    ∧ in_modules_area "/srv/app/uploads/../../../etc/secret.pdf" = false
    ∧ writer m' = [Byte.xff].
Proof. by vm_compute. Qed.

End ExportExamples.

(** ** Module Store: upload *)

Section UploadProperties.
Context `{Deployment, Werkzeug}.

Lemma numbered_inj base ext : Inj (=) (=) (numbered base ext).
Proof.
  intros n m Heq. unfold numbered in Heq.
  apply (inj (String.app base)), (inj (String.app "_")), app_inj_r in Heq.
  by apply (inj pretty).
Qed.

Lemma numbered_plain base ext n : flat base → flat ext → plain (numbered base ext n).
Proof.
  intros Hbase Hext. unfold numbered. split.
  { rewrite !flat_app. split_and!; [done|done|apply flat_pretty_nat|done]. }
  pose proof (pretty_nat_nonempty n) as Hn.
  destruct base as [|c [|c' [|c'' base]]]; rewrite ?app_String, ?app_empty_l;
    split_and!; done.
Qed.

Lemma splitext_flat s :
  flat (OsPath.splitext (secure_filename s)).1
  ∧ flat (OsPath.splitext (secure_filename s)).2.
Proof. apply flat_app. rewrite splitext_app. apply secure_filename_flat. Qed.

Lemma taken_all_bounded (fs : filesystem) base ext :
  flat base → flat ext →
  ∃ n : nat, (n ≤ S (size fs))%nat ∧ (1 ≤ n)%nat ∧ taken fs base ext n = false.
Proof.
  intros Hbase Hext.
  destruct (decide (Forall (λ k, taken fs base ext k = true) (seq 1 (S (size fs)))))
    as [Hall|Hsome].
  - exfalso.
    set (key k := locate UPLOAD_FOLDER ++ [numbered base ext k]).
    assert (NoDup (key <$> seq 1 (S (size fs)))) as Hnodup.
    { apply NoDup_fmap_2_strong; [|apply NoDup_seq].
      intros n m _ _ Heq. apply app_inv_head in Heq.
      injection Heq as Heq. by apply numbered_inj in Heq. }
    assert (key <$> seq 1 (S (size fs)) ⊆+ elements (dom fs)) as Hsub.
    { apply NoDup_submseteq; [done|]. intros loc (k & -> & Hk)%list_elem_of_fmap.
      rewrite list.Forall_forall in Hall. specialize (Hall k Hk).
      unfold taken in Hall. apply exists_true in Hall.
      rewrite locate_join in Hall by by apply numbered_plain.
      by apply elem_of_elements, elem_of_dom. }
    apply submseteq_length in Hsub.
    rewrite length_fmap, length_seq in Hsub.
    change (length (elements (dom fs))) with (size (dom fs)) in Hsub.
    rewrite size_dom in Hsub. lia.
  - apply list.not_Forall_Exists in Hsome; [|apply _].
    apply list.Exists_exists in Hsome as (n & Hn & Hfree).
    apply elem_of_seq in Hn. exists n. split_and!; [lia..|].
    simpl in Hfree. by destruct (taken fs base ext n).
Qed.

Lemma least_free fs base ext (n : nat) :
  (1 ≤ n)%nat → taken fs base ext n = false →
  ∃ m : nat, (1 ≤ m ≤ n)%nat ∧ taken fs base ext m = false
       ∧ ∀ k : nat, (1 ≤ k < m)%nat → taken fs base ext k = true.
Proof.
  induction (lt_wf n) as [n _ IH]. intros Hn Hfree.
  destruct (decide (Forall (λ k, taken fs base ext k = true) (seq 1 (n - 1))))
    as [Hall|Hsome].
  - exists n. split_and!; [lia..|done|]. intros k Hk.
    rewrite list.Forall_forall in Hall. apply Hall, elem_of_seq. lia.
  - apply list.not_Forall_Exists in Hsome; [|apply _].
    apply list.Exists_exists in Hsome as (k & Hk & Hkfree).
    apply elem_of_seq in Hk.
    simpl in Hkfree.
    destruct (IH k) as (m & Hm & Hmfree & Hleast); [lia|lia|by destruct (taken _ _ _ k)|].
    exists m. split_and!; [lia..|done|done].
Qed.

Lemma find_unique_steps fs base ext (d : nat) :
  ∀ (fuel counter : nat) unique,
    exists_ fs (OsPath.join UPLOAD_FOLDER unique) = true →
    (∀ k : nat, (counter ≤ k < counter + d)%nat → taken fs base ext k = true) →
    taken fs base ext (counter + d) = false →
    (d + 2 ≤ fuel)%nat →
    find_unique fuel fs base ext unique counter = Some (numbered base ext (counter + d)).
Proof.
  induction d as [|d IH]; intros fuel counter unique Hused Hbelow Hfree Hfuel.
  - destruct fuel as [|[|fuel]]; [lia..|]. simpl. rewrite Hused.
    rewrite Nat.add_0_r in Hfree. unfold taken in Hfree. by rewrite Hfree, Nat.add_0_r.
  - destruct fuel as [|fuel]; [lia|]. simpl. rewrite Hused.
    replace (counter + S d) with (counter + 1 + d) in * by lia.
    apply IH; [|intros k Hk; apply Hbelow; lia|done|lia].
    apply (Hbelow counter). lia.
Qed.

Lemma find_unique_free fs base ext fuel counter unique :
  exists_ fs (OsPath.join UPLOAD_FOLDER unique) = false →
  find_unique (S fuel) fs base ext unique counter = Some unique.
Proof. intros Hfree. simpl. by rewrite Hfree. Qed.

(** The loop, run with enough fuel, stops at a free name: the name it
    started with, or the first numbered name that is not taken. *)
Lemma find_unique_total (fs : filesystem) name :
  let base := (OsPath.splitext (secure_filename name)).1 in
  let ext := (OsPath.splitext (secure_filename name)).2 in
  ∃ unique,
    (∀ fuel : nat, (size fs + 3 ≤ fuel)%nat →
       find_unique fuel fs base ext (secure_filename name) 1 = Some unique)
    ∧ exists_ fs (OsPath.join UPLOAD_FOLDER unique) = false
    ∧ if exists_ fs (OsPath.join UPLOAD_FOLDER (secure_filename name))
      then ∃ n : nat, (1 ≤ n)%nat ∧ unique = numbered base ext n
                ∧ ∀ k : nat, (1 ≤ k < n)%nat → taken fs base ext k = true
      else unique = secure_filename name.
Proof.
  intros base ext. destruct (splitext_flat name) as [Hbase Hext].
  destruct (exists_ fs (OsPath.join UPLOAD_FOLDER (secure_filename name))) eqn:Hname.
  - destruct (taken_all_bounded fs base ext Hbase Hext) as (n0 & Hbound & Hpos & Hfree0).
    destruct (least_free fs base ext n0 Hpos Hfree0) as (n & Hn & Hfree & Hleast).
    exists (numbered base ext n). split_and!; [|done|by exists n; split_and!; [lia|..]].
    intros fuel Hfuel. replace n with (1 + (n - 1)) at 1 by lia.
    apply find_unique_steps; [done| |by replace (1 + (n - 1)) with n by lia|lia].
    intros k Hk. apply Hleast. lia.
  - exists (secure_filename name). split_and!; [|done..].
    intros [|fuel] Hfuel; [lia|]. by apply find_unique_free.
Qed.

End UploadProperties.

Section UploadTheorems.
Context `{Deployment, Werkzeug}.



Lemma save_upload_pdf fuel fs saved f unique :
  PyStr.is_pdf_name (filename f) = true →
  find_unique fuel fs (OsPath.splitext (secure_filename (filename f))).1
    (OsPath.splitext (secure_filename (filename f))).2
    (secure_filename (filename f)) 1 = Some unique →
  save_upload fuel (fs, saved) f
  = Some (write_file fs (OsPath.join UPLOAD_FOLDER unique) (stream f), saved ++ [unique]).
Proof.
  intros Hname Hloop. unfold save_upload. rewrite Hname. simpl.
  destruct (OsPath.splitext _) as [base ext]. simpl in Hloop. by rewrite Hloop.
Qed.

Lemma exists_after_write fs a data b :
  plain a → plain b →
  exists_ (write_file fs (OsPath.join UPLOAD_FOLDER a) data) (OsPath.join UPLOAD_FOLDER b)
  = bool_decide (a = b) || exists_ fs (OsPath.join UPLOAD_FOLDER b).
Proof.
  intros Ha Hb. rewrite exists_write_file, !locate_join by done. f_equal.
  apply bool_decide_ext. split; [|by intros ->].
  intros Heq%app_inv_head. by injection Heq.
Qed.


(** C4. An upload whose sanitized name is taken is stored under the
    first name [base_n.ext], n = 1, 2, ..., that is free; the upload is
    written under a name that did not exist, that name is what the
    response lists, and every entry of the store is kept.  Three uploads
    of [a.pdf] are stored as [a.pdf], [a_1.pdf] and [a_2.pdf]. *)
Theorem upload_resolves_collisions (fs : filesystem) :
  (∀ f,
     PyStr.is_pdf_name (filename f) = true →
     let name := secure_filename (filename f) in
     let base := (OsPath.splitext name).1 in
     let ext := (OsPath.splitext name).2 in
     ∃ unique,
       let fs' := write_file fs (OsPath.join UPLOAD_FOLDER unique) (stream f) in
       (∀ fuel : nat, (size fs + 3 ≤ fuel)%nat →
          upload_files fuel fs [f]
          = Some (fs', {| saved := [unique]; all := list_modules fs' |}))
       ∧ exists_ fs (OsPath.join UPLOAD_FOLDER unique) = false
       ∧ (∀ loc entry, fs !! loc = Some entry → fs' !! loc = Some entry)
       ∧ if exists_ fs (OsPath.join UPLOAD_FOLDER name)
         then ∃ n : nat, (1 ≤ n)%nat ∧ unique = numbered base ext n
                ∧ ∀ k : nat, (1 ≤ k < n)%nat →
                    exists_ fs (OsPath.join UPLOAD_FOLDER (numbered base ext k)) = true
         else unique = name)
  ∧ (∀ data1 data2 data3 (fuel : nat),
       secure_filename "a.pdf" = "a.pdf" →
       exists_ fs (OsPath.join UPLOAD_FOLDER "a.pdf") = false →
       exists_ fs (OsPath.join UPLOAD_FOLDER "a_1.pdf") = false →
       exists_ fs (OsPath.join UPLOAD_FOLDER "a_2.pdf") = false →
       (3 ≤ fuel)%nat →
       saved <$> (snd <$> upload_files fuel fs
                    [{| filename := "a.pdf"; stream := data1 |};
                     {| filename := "a.pdf"; stream := data2 |};
                     {| filename := "a.pdf"; stream := data3 |}])
       = Some ["a.pdf"; "a_1.pdf"; "a_2.pdf"]).
Proof.
  split.
  - intros f Hname name base ext.
    destruct (find_unique_total fs (filename f)) as (unique & Hloop & Hfree & Hshape).
    exists unique. split_and!; [|done| |done].
    + intros fuel Hfuel. unfold upload_files, save_all.
      rewrite (save_upload_pdf fuel fs [] f unique Hname) by by apply Hloop.
      done.
    + intros loc entry Hentry. by apply write_file_fresh.
  - intros data1 data2 data3 fuel Hsecure Hfree0 Hfree1 Hfree2 Hfuel.
    assert (plain "a.pdf" ∧ plain "a_1.pdf" ∧ plain "a_2.pdf") as (Hp0 & Hp1 & Hp2)
      by (by repeat split).
    set (fs1 := write_file fs (OsPath.join UPLOAD_FOLDER "a.pdf") data1).
    set (fs2 := write_file fs1 (OsPath.join UPLOAD_FOLDER "a_1.pdf") data2).
    assert (find_unique fuel fs "a" ".pdf" "a.pdf" 1 = Some "a.pdf") as Hloop0.
    { destruct fuel; [lia|]. by apply find_unique_free. }
    assert (find_unique fuel fs1 "a" ".pdf" "a.pdf" 1 = Some "a_1.pdf") as Hloop1.
    { apply (find_unique_steps fs1 "a" ".pdf" 0 fuel 1 "a.pdf"); [| | |lia].
      - unfold fs1. by rewrite exists_after_write.
      - intros k Hk. lia.
      - unfold taken, fs1.
        change (numbered "a" ".pdf" (1 + 0)) with "a_1.pdf".
        rewrite exists_after_write by done. by rewrite Hfree1. }
    assert (find_unique fuel fs2 "a" ".pdf" "a.pdf" 1 = Some "a_2.pdf") as Hloop2.
    { apply (find_unique_steps fs2 "a" ".pdf" 1 fuel 1 "a.pdf"); [| | |lia].
      - unfold fs2, fs1. by rewrite !exists_after_write.
      - intros k Hk. assert (k = 1) as -> by lia. unfold taken, fs2, fs1.
        change (numbered "a" ".pdf" 1) with "a_1.pdf".
        by rewrite !exists_after_write.
      - unfold taken, fs2, fs1.
        change (numbered "a" ".pdf" (1 + 1)) with "a_2.pdf".
        rewrite !exists_after_write by done. by rewrite Hfree2. }
    unfold upload_files, save_all.
    rewrite (save_upload_pdf fuel fs [] _ "a.pdf");
      [|done|by simpl; rewrite Hsecure].
    cbn [mbind option_bind stream]. fold fs1.
    rewrite (save_upload_pdf fuel fs1 _ _ "a_1.pdf");
      [|done|by simpl; rewrite Hsecure].
    cbn [mbind option_bind stream]. fold fs2.
    rewrite (save_upload_pdf fuel fs2 _ _ "a_2.pdf");
      [|done|by simpl; rewrite Hsecure].
    done.
Qed.

End UploadTheorems.

Section ListingTheorems.
Context `{Deployment, Werkzeug}.

Lemma unlisted_free fs name :
  plain name → PyStr.is_pdf_name name = true → list_modules fs = [] →
  exists_ fs (OsPath.join UPLOAD_FOLDER name) = false.
Proof.
  intros Hplain Hpdf Hempty.
  destruct (exists_ fs (OsPath.join UPLOAD_FOLDER name)) eqn:Hex; [|done].
  apply exists_true in Hex. rewrite locate_join in Hex by done.
  assert (name ∈ list_modules fs) as Hin by by apply elem_of_list_modules.
  rewrite Hempty in Hin. by apply not_elem_of_nil in Hin.
Qed.

Lemma upload_one_free fuel fs f :
  PyStr.is_pdf_name (filename f) = true →
  exists_ fs (OsPath.join UPLOAD_FOLDER (secure_filename (filename f))) = false →
  (1 ≤ fuel)%nat →
  let fs' := write_file fs (OsPath.join UPLOAD_FOLDER (secure_filename (filename f)))
               (stream f) in
  upload_files fuel fs [f]
  = Some (fs', {| saved := [secure_filename (filename f)]; all := list_modules fs' |}).
Proof.
  intros Hpdf Hfree Hfuel fs'. unfold upload_files, save_all.
  rewrite (save_upload_pdf fuel fs [] f (secure_filename (filename f))); [done..|].
  destruct fuel; [lia|]. by apply find_unique_free.
Qed.

(** C7. [list_modules] gives exactly the entries of the modules area
    whose name ends in [.pdf] in any case, each once, in ascending
    lexicographic order, and leaves the store as it is; after [b.pdf] and
    then [a.pdf] are uploaded to a store without modules it gives
    [a.pdf], [b.pdf]. *)
Theorem list_modules_sorted_pdf_entries (fs : filesystem) :
  (∀ name, name ∈ list_modules fs
           ↔ is_Some (fs !! (locate UPLOAD_FOLDER ++ [name]))
             ∧ PyStr.is_pdf_name name = true)
  ∧ StronglySorted String.le (list_modules fs)
  ∧ NoDup (list_modules fs)
  ∧ list_modules_api fs = (fs, list_modules fs)
  ∧ (∀ data_b data_a (fuel : nat),
       secure_filename "b.pdf" = "b.pdf" →
       secure_filename "a.pdf" = "a.pdf" →
       list_modules fs = [] →
       (1 ≤ fuel)%nat →
       ∃ fs1 fs2 response1 response2,
         upload_files fuel fs [{| filename := "b.pdf"; stream := data_b |}]
         = Some (fs1, response1)
         ∧ upload_files fuel fs1 [{| filename := "a.pdf"; stream := data_a |}]
           = Some (fs2, response2)
         ∧ list_modules fs2 = ["a.pdf"; "b.pdf"]
         ∧ all response2 = ["a.pdf"; "b.pdf"]).
Proof.
  split_and!;
    [apply elem_of_list_modules|apply list_modules_sorted|apply NoDup_list_modules|done|].
  intros data_b data_a fuel Hb Ha Hempty Hfuel.
  assert (plain "a.pdf" ∧ plain "b.pdf") as [Hpa Hpb] by (by repeat split).
  set (fs1 := write_file fs (OsPath.join UPLOAD_FOLDER "b.pdf") data_b).
  set (fs2 := write_file fs1 (OsPath.join UPLOAD_FOLDER "a.pdf") data_a).
  assert (list_modules fs2 = ["a.pdf"; "b.pdf"]) as Hlist.
  { apply (StronglySorted_unique String.le); [apply list_modules_sorted| |].
    { repeat constructor. }
    apply NoDup_Permutation; [apply NoDup_list_modules| |].
    { apply list.NoDup_cons. split; [|apply NoDup_singleton].
      by intros ?%list_elem_of_singleton. }
    intros name. rewrite elem_of_list_modules. unfold fs2, fs1, write_file.
    rewrite !locate_join by done. split.
    - intros [Hentry Hpdf].
      destruct (decide (name = "a.pdf")) as [->|Hna]; [set_solver|].
      destruct (decide (name = "b.pdf")) as [->|Hnb]; [set_solver|].
      rewrite !lookup_insert_ne in Hentry by (intros Heq%app_inv_head; congruence).
      assert (name ∈ list_modules fs) as Hin by by apply elem_of_list_modules.
      rewrite Hempty in Hin. by apply not_elem_of_nil in Hin.
    - intros [->|Hname]%elem_of_cons;
        [|apply list_elem_of_singleton in Hname as ->].
      + by rewrite lookup_insert_eq.
      + rewrite lookup_insert_ne by (intros Heq%app_inv_head; congruence).
        by rewrite lookup_insert_eq. }
  pose proof (upload_one_free fuel fs {| filename := "b.pdf"; stream := data_b |})
    as Hup1.
  simpl in Hup1. rewrite Hb in Hup1.
  specialize (Hup1 eq_refl (unlisted_free fs "b.pdf" Hpb eq_refl Hempty) Hfuel).
  pose proof (upload_one_free fuel fs1 {| filename := "a.pdf"; stream := data_a |})
    as Hup2.
  simpl in Hup2. rewrite Ha in Hup2.
  assert (exists_ fs1 (OsPath.join UPLOAD_FOLDER "a.pdf") = false) as Hfree.
  { unfold fs1. rewrite exists_after_write by done. by rewrite unlisted_free. }
  specialize (Hup2 eq_refl Hfree Hfuel).
  eexists fs1, fs2, _, _. split_and!; [exact Hup1|exact Hup2|done|done].
Qed.

End ListingTheorems.

Module UploadExamples.
Import Demo.
#[local] Existing Instances deployment werkzeug.


Lemma upload_resolves_collisions_witness :
  saved <$> (snd <$> upload_files 3 fresh [a_pdf; a_pdf; a_pdf])
  = Some ["a.pdf"; "a_1.pdf"; "a_2.pdf"].
Proof.
  apply (proj2 (upload_resolves_collisions fresh)); first [reflexivity | lia].
Defined.

Lemma list_modules_sorted_pdf_entries_witness :
  ∃ fs1 fs2 response1 response2,
    upload_files 1 fresh [b_pdf] = Some (fs1, response1)
    ∧ upload_files 1 fs1 [a_pdf] = Some (fs2, response2)
    ∧ list_modules fs2 = ["a.pdf"; "b.pdf"]
    ∧ all response2 = ["a.pdf"; "b.pdf"].
Proof.
  apply (proj2 (proj2 (proj2 (proj2 (list_modules_sorted_pdf_entries fresh)))));
    first [reflexivity | lia].
Defined.

End UploadExamples.

(** ** Cover Generator: the title *)

Section WordProperties.

Lemma truthy_true s : PyStr.truthy s = true ↔ s ≠ "".
Proof. by destruct s. Qed.

Lemma push_word_words w ws :
  PyStr.solid w = true → Forall PyStr.word ws → Forall PyStr.word (PyStr.push_word w ws).
Proof.
  intros Hw Hws. unfold PyStr.push_word. destruct (PyStr.truthy w) eqn:Hne; [|done].
  constructor; [|done]. split; [done|]. by apply truthy_true.
Qed.

Lemma split_go_words s :
  PyStr.solid (PyStr.split_go s).1 = true ∧ Forall PyStr.word (PyStr.split_go s).2.
Proof.
  induction s as [|c s [Hw Hws]]; simpl; [done|].
  destruct (PyStr.split_go s) as [w ws]. simpl in *.
  destruct (PyStr.isspace c) eqn:Hc; simpl.
  - split; [done|]. by apply push_word_words.
  - by rewrite Hc, Hw.
Qed.

(** [split] gives words. *)
Lemma split_words s : Forall PyStr.word (PyStr.split s).
Proof.
  unfold PyStr.split. destruct (split_go_words s) as [Hw Hws].
  destruct (PyStr.split_go s) as [w ws]. by apply push_word_words.
Qed.

Lemma rstrip_solid w : PyStr.solid w = true → PyStr.rstrip w = w.
Proof.
  induction w as [|c w IH]; [done|]. simpl.
  intros [Hc Hw]%andb_prop. rewrite IH by done.
  apply negb_true_iff in Hc. by rewrite Hc.
Qed.

Lemma rstrip_app a b : PyStr.rstrip b ≠ "" → PyStr.rstrip (a +:+ b) = a +:+ PyStr.rstrip b.
Proof.
  intros Hb. induction a as [|c a IH]; [done|]. rewrite !app_String. simpl.
  rewrite IH. destruct (a +:+ PyStr.rstrip b) eqn:Hab; [|by rewrite andb_false_r].
  destruct a; [|done]. by rewrite app_empty_l in Hab.
Qed.

Lemma word_starts w : PyStr.word w → ∃ c w', w = String c w' ∧ PyStr.isspace c = false.
Proof.
  intros [Hsolid Hne]. destruct w as [|c w]; [done|]. exists c, w. split; [done|].
  simpl in Hsolid. apply andb_prop in Hsolid as [Hc _]. by apply negb_true_iff.
Qed.

Lemma strip_extend current w :
  tidy current → PyStr.word w →
  PyStr.strip (current +:+ " " +:+ w) = extend current w.
Proof.
  intros Htidy Hw. pose proof Hw as [Hsolid Hne].
  destruct (word_starts w Hw) as (c & w' & -> & Hc).
  unfold PyStr.strip, extend. destruct current as [|c0 current]; simpl in Htidy.
  - simpl PyStr.truthy. cbn iota. rewrite app_empty_l.
    change (" " +:+ String c w') with (String " " (String c w')).
    simpl PyStr.lstrip. rewrite Hc. by apply rstrip_solid.
  - simpl PyStr.truthy. cbn iota. rewrite app_String. simpl PyStr.lstrip.
    rewrite Htidy. rewrite <- app_String.
    assert (PyStr.rstrip (" " +:+ String c w') = " " +:+ String c w') as Hr.
    { change (" " +:+ String c w') with (String " " (String c w')).
      change (PyStr.rstrip (String " " (String c w')))
        with (let r := PyStr.rstrip (String c w') in
              if PyStr.isspace " " && negb (PyStr.truthy r) then "" else String " " r).
      rewrite (rstrip_solid _ Hsolid). done. }
    rewrite rstrip_app; rewrite Hr; done.
Qed.

Lemma tidy_extend current w : tidy current → PyStr.word w → tidy (extend current w).
Proof.
  intros Htidy Hw. destruct (word_starts w Hw) as (c & w' & -> & Hc).
  unfold extend. by destruct current.
Qed.

Lemma extend_truthy current w : PyStr.word w → PyStr.truthy (extend current w) = true.
Proof.
  intros Hw. destruct (word_starts w Hw) as (c & w' & -> & Hc).
  unfold extend. by destruct current.
Qed.

Lemma join_extend ws current :
  PyStr.truthy current = true →
  fold_left extend ws current = PyStr.join " " (current :: ws).
Proof.
  revert current. induction ws as [|w ws IH]; intros current Hcur; [done|].
  simpl fold_left. unfold extend at 2. rewrite Hcur.
  rewrite IH by (by destruct current).
  destruct ws as [|x ws]; [done|].
  change (PyStr.join " " ((current +:+ " " +:+ w) :: x :: ws))
    with ((current +:+ " " +:+ w) +:+ " " +:+ PyStr.join " " (x :: ws)).
  change (PyStr.join " " (current :: w :: x :: ws))
    with (current +:+ " " +:+ (w +:+ " " +:+ PyStr.join " " (x :: ws))).
  by rewrite !app_assoc_string.
Qed.

End WordProperties.

Section WrapProperties.
Context `{Reportlab}.

Lemma wrap_step_extend lines current w :
  tidy current → PyStr.word w →
  wrap_step (lines, current) w
  = if decide (fits (extend current w)) then (lines, extend current w)
    else (lines ++ [current], w).
Proof. intros Htidy Hw. unfold wrap_step, fits. by rewrite strip_extend. Qed.

Lemma word_tidy w : PyStr.word w → tidy w.
Proof. intros Hw. by destruct (word_starts w Hw) as (c & w' & -> & Hc). Qed.

(** The loop of the program and the greedy recursion give the same lines. *)
Lemma wrap_loop_greedy words :
  Forall PyStr.word words →
  ∀ lines current, tidy current →
    (let '(lines', current') := fold_left wrap_step words (lines, current) in
     if PyStr.truthy current' then lines' ++ [current'] else lines')
    = lines ++ greedy current words.
Proof.
  induction 1 as [|w words Hw Hwords IH]; intros lines current Htidy.
  - simpl. destruct (PyStr.truthy current); [done|by rewrite app_nil_r].
  - cbn [fold_left]. rewrite wrap_step_extend by done. cbn [greedy].
    destruct (decide (fits (extend current w))).
    + rewrite IH by by apply tidy_extend. done.
    + rewrite IH by by apply word_tidy. by rewrite <- app_assoc.
Qed.

Lemma wrap_title_refines title : wrap_title title = greedy "" (PyStr.split title).
Proof.
  unfold wrap_title.
  pose proof (wrap_loop_greedy (PyStr.split title) (split_words title) [] "" I) as Hloop.
  by destruct (fold_left wrap_step (PyStr.split title) ([], "")).
Qed.

Lemma greedy_nonempty words current :
  PyStr.truthy current = true → (1 ≤ length (greedy current words))%nat.
Proof.
  revert current. induction words as [|w words IH]; intros current Hcur; simpl.
  - rewrite Hcur. simpl. lia.
  - destruct (decide (fits (extend current w))); simpl; [|lia].
    apply IH. unfold extend. rewrite Hcur. by destruct current.
Qed.

Lemma greedy_overflow words :
  Forall PyStr.word words →
  ∀ current, PyStr.truthy current = true → fits current →
    ¬ fits (fold_left extend words current) →
    (2 ≤ length (greedy current words))%nat.
Proof.
  induction 1 as [|w words Hw Hwords IH]; intros current Hcur Hfits Hwide; [done|].
  simpl in *. destruct (decide (fits (extend current w))) as [Hfit|Hover].
  - apply IH; [by apply extend_truthy|done..].
  - simpl. pose proof (greedy_nonempty words w) as Hrest.
    rewrite truthy_true in Hrest. destruct Hw as [_ Hne]. specialize (Hrest Hne). lia.
Qed.

(** A title whose words, set on one line, do not fit is wrapped to two
    lines or more. *)
Lemma wide_title_wraps title :
  PyStr.split title ≠ [] →
  ¬ fits (PyStr.join " " (PyStr.split title)) →
  (2 ≤ length (wrap_title title))%nat.
Proof.
  rewrite wrap_title_refines. pose proof (split_words title) as Hwords.
  destruct (PyStr.split title) as [|w words]; [done|]. intros _ Hwide.
  apply list.Forall_cons in Hwords as [Hw Hwords].
  assert (PyStr.truthy w = true) as Hne by (apply truthy_true, Hw).
  rewrite <- join_extend in Hwide by done.
  simpl greedy. change (extend "" w) with w.
  destruct (decide (fits w)) as [Hfit|Hover].
  - by apply greedy_overflow.
  - simpl. pose proof (greedy_nonempty words w Hne). lia.
Qed.

End WrapProperties.

(** ** Cover Generator: the run on the canvas *)

Section RunProperties.
Context {A : Type}.
Implicit Types run : list (result A).

Lemma raised_app run1 run2 :
  raised (run1 ++ run2)
  = match raised run1 with Some e => Some e | None => raised run2 end.
Proof. induction run1 as [|[a|e] run1 IH]; simpl; done. Qed.

Lemma completed_app run1 run2 :
  completed (run1 ++ run2)
  = completed run1 ++ match raised run1 with Some _ => [] | None => completed run2 end.
Proof.
  induction run1 as [|[a|e] run1 IH]; simpl; [done| |done]. by rewrite IH.
Qed.

End RunProperties.

Section CoverRun.
Context `{Deployment, Reportlab, Datetime}.

(** The statements of the bars stop at the first path call: the canvas has
    received the fill colour, [saveState] and [beginPath], and [c.moveTo]
    raises. *)
Lemma draw_bars_run :
  completed (statement <$> draw_bars)
  = [setFillColor (HexColor BRAND_BLUE); saveState; beginPath]
  ∧ raised (statement <$> draw_bars) = Some AttributeError.
Proof. split; reflexivity. Qed.

(** What the background block puts on the canvas when the image, if there
    is one, is read. *)
Lemma draw_background_calls fs background :
  draw_background fs = Ok background →
  (∃ x y w h,
     background = [drawImage (OsPath.join STATIC_FOLDER "background.png") x y w h])
  ∨ (∃ x y w h,
       background = [setFillColor (HexColor GREY); rect x y w h 0 1]).
Proof.
  unfold draw_background.
  destruct (exists_ fs _); [|intros [= <-]; right; by eexists _, _, _, _].
  destruct (getSize fs _) as [[img_width img_height]|e]; [|done].
  unfold mbind, result_bind. cbn beta iota.
  case_decide; intros [= <-]; left; by eexists _, _, _, _.
Qed.

Lemma statements_background fs background :
  draw_background fs = Ok background →
  statements (draw_background fs) = Ok <$> background.
Proof.
  intros Hdrawn. rewrite Hdrawn.
  by destruct (draw_background_calls _ _ Hdrawn)
    as [(x & y & w & h & ->)|(x & y & w & h & ->)].
Qed.

(** The run of [generate_cover_pdf] on the canvas: the background block,
    then the three calls of the first bar that the canvas has, then the
    exception of [c.moveTo]; or the exception of reading the background. *)
Lemma draw_cover_run fs title client_name created_by date_str :
  match draw_background fs with
  | Ok background =>
      completed (draw_cover fs title client_name created_by date_str)
      = background ++ [setFillColor (HexColor BRAND_BLUE); saveState; beginPath]
      ∧ raised (draw_cover fs title client_name created_by date_str)
        = Some AttributeError
  | Raise e =>
      completed (draw_cover fs title client_name created_by date_str) = []
      ∧ raised (draw_cover fs title client_name created_by date_str) = Some e
  end.
Proof.
  unfold draw_cover. destruct (draw_background fs) as [background|e] eqn:Hdrawn.
  - rewrite <- Hdrawn, (statements_background _ _ Hdrawn).
    rewrite completed_app, raised_app, raised_pages, completed_pages.
    rewrite completed_app, raised_app.
    destruct draw_bars_run as [-> ->]. done.
  - done.
Qed.

Lemma generate_cover_pdf_raises fs timestamp title client_name created_by date_str :
  generate_cover_pdf fs timestamp title client_name created_by date_str
  = Raise (match draw_background fs with Ok _ => AttributeError | Raise e => e end).
Proof.
  unfold generate_cover_pdf.
  pose proof (draw_cover_run fs title client_name created_by date_str) as Hrun.
  destruct (draw_background fs); destruct Hrun as [_ ->]; done.
Qed.

(** The calls the canvas has received when the run ends. *)
Lemma canvas_calls fs title client_name created_by date_str c :
  c ∈ completed (draw_cover fs title client_name created_by date_str) →
  (∃ x y w h, c = drawImage (OsPath.join STATIC_FOLDER "background.png") x y w h)
  ∨ (∃ x y w h, c = rect x y w h 0 1)
  ∨ (∃ col, c = setFillColor col)
  ∨ c = saveState ∨ c = beginPath.
Proof.
  pose proof (draw_cover_run fs title client_name created_by date_str) as Hrun.
  destruct (draw_background fs) as [background|e] eqn:Hdrawn;
    destruct Hrun as [-> _]; [|by intros ?%elem_of_nil].
  destruct (draw_background_calls _ _ Hdrawn)
    as [(x & y & w & h & ->)|(x & y & w & h & ->)]; simpl;
    rewrite ?elem_of_cons, elem_of_nil; intros Hc;
    repeat (destruct Hc as [->|Hc]); try done; eauto 10.
Qed.

Lemma static_assets_differ :
  OsPath.join STATIC_FOLDER "logo.png" ≠ OsPath.join STATIC_FOLDER "background.png".
Proof.
  intros Heq. apply (f_equal locate) in Heq.
  rewrite !locate_join in Heq by by vm_compute.
  by apply app_inv_head in Heq.
Qed.

End CoverRun.

Section CoverTheorems.
Context `{Deployment, Reportlab, Datetime}.

(** C5. No line of the title is drawn.  For every store and every title,
    names and date, the run of the cover generator ends in an exception,
    and no [drawString] is among the calls the canvas has received, although
    a title with a word wraps to a line at least: the path calls of the
    header bar come before the title loop and raise. *)
Theorem title_never_drawn fs timestamp title client_name created_by date_str :
  (∃ e, generate_cover_pdf fs timestamp title client_name created_by date_str
        = Raise e)
  ∧ (PyStr.split title ≠ [] → wrap_title title ≠ [])
  ∧ ∀ x y line,
      drawString x y line
      ∉ completed (draw_cover fs title client_name created_by date_str).
Proof.
  split_and!.
  - eexists. apply generate_cover_pdf_raises.
  - intros Hwords. rewrite wrap_title_refines.
    pose proof (split_words title) as Hsplit.
    destruct (PyStr.split title) as [|w words]; [done|].
    apply list.Forall_cons in Hsplit as [Hw _].
    assert (PyStr.truthy w = true) as Hne by apply truthy_true, Hw.
    cbn [greedy]. change (extend "" w) with w.
    destruct (decide (fits w)); [|done].
    pose proof (greedy_nonempty words w Hne) as Hlen.
    intros Hnil. rewrite Hnil in Hlen. simpl in Hlen. lia.
  - intros x y line Hin. apply canvas_calls in Hin.
    destruct Hin as [(? & ? & ? & ? & ?)|[(? & ? & ? & ? & ?)|[[? ?]|[?|?]]]];
      discriminate.
Qed.

(** C6. The logo is never drawn.  For every store, with a logo among the
    static assets or without, the run of the cover generator ends in an
    exception before the logo block, and no [drawImage] of the logo is
    among the calls the canvas has received. *)
Theorem logo_never_drawn fs timestamp title client_name created_by date_str :
  (∃ e, generate_cover_pdf fs timestamp title client_name created_by date_str
        = Raise e)
  ∧ ∀ x y w h,
      drawImage (OsPath.join STATIC_FOLDER "logo.png") x y w h
      ∉ completed (draw_cover fs title client_name created_by date_str).
Proof.
  split.
  - eexists. apply generate_cover_pdf_raises.
  - intros x y w h Hin. apply canvas_calls in Hin.
    destruct Hin as [(? & ? & ? & ? & Heq)|[(? & ? & ? & ? & ?)|[[? ?]|[?|?]]]];
      try discriminate.
    injection Heq as Hpath _ _ _ _. by apply static_assets_differ in Hpath.
Qed.

(** C9. The date is never drawn.  For every store and every date string,
    one that parses or one that does not, the run of the cover generator
    ends in an exception before the date block, and no [drawRightString] is
    among the calls the canvas has received. *)
Theorem date_never_drawn fs timestamp title client_name created_by date_str :
  (∃ e, generate_cover_pdf fs timestamp title client_name created_by date_str
        = Raise e)
  ∧ ∀ x y text,
      drawRightString x y text
      ∉ completed (draw_cover fs title client_name created_by date_str).
Proof.
  split.
  - eexists. apply generate_cover_pdf_raises.
  - intros x y text Hin. apply canvas_calls in Hin.
    destruct Hin as [(? & ? & ? & ? & ?)|[(? & ? & ? & ? & ?)|[[? ?]|[?|?]]]];
      discriminate.
Qed.

(** C10. The route [/generate_cover] returns no cover.  For every store,
    clock reading and request, [generate_cover] raises: [AttributeError],
    from [c.moveTo], when the background is absent or is read, and the
    exception of reading the background otherwise.  Neither [showPage] nor
    [save] is reached, so no cover is written. *)
Theorem generate_cover_raises fs timestamp data :
  generate_cover fs timestamp data
  = Raise (match draw_background fs with Ok _ => AttributeError | Raise e => e end)
  ∧ ∀ title client_name created_by date_str,
      (showPage ∉ completed (draw_cover fs title client_name created_by date_str))
      ∧ (save ∉ completed (draw_cover fs title client_name created_by date_str)).
Proof.
  split; [apply generate_cover_pdf_raises|].
  intros title client_name created_by date_str.
  split; intros Hin; apply canvas_calls in Hin;
    destruct Hin as [(? & ? & ? & ? & ?)|[(? & ? & ? & ? & ?)|[[? ?]|[?|?]]]];
    discriminate.
Qed.

End CoverTheorems.

Module CoverExamples.
Import Demo.
#[local] Existing Instances deployment reportlab datetime_.

(** Two requests: the empty one on a fresh installation, and one with
    every field on an installation with a logo. *)
Lemma cover_requests_raise :
  generate_cover fresh clock ∅ = Raise AttributeError
  ∧ generate_cover branded clock
      {[ "title" := long_title; "client_name" := "Acme";
         "created_by" := "Gage"; "date" := "2024-03-01" ]}
    = Raise AttributeError.
Proof. split; reflexivity. Qed.

End CoverExamples.

(** * Further properties *)

(** ** Upload requests of several files *)

Section UploadRequests.
Context `{Deployment, Werkzeug}.

Lemma find_unique_result fs base ext : ∀ fuel unique counter found,
  find_unique fuel fs base ext unique counter = Some found →
  exists_ fs (OsPath.join UPLOAD_FOLDER found) = false
  ∧ (found = unique ∨ ∃ n, found = numbered base ext n).
Proof.
  induction fuel as [|fuel IH]; intros unique counter found; [done|]. simpl.
  destruct (exists_ fs (OsPath.join UPLOAD_FOLDER unique)) eqn:Hex.
  - intros [Hfree [->|[n ->]]]%IH; (split; [done|right; by eexists]).
  - intros [= <-]. by split; [|left].
Qed.

(** What one turn of the upload loop does when it ends. *)
Lemma save_upload_result fuel fs saved f fs' saved' :
  save_upload fuel (fs, saved) f = Some (fs', saved') →
  (PyStr.is_pdf_name (filename f) = false ∧ fs' = fs ∧ saved' = saved)
  ∨ (PyStr.is_pdf_name (filename f) = true
     ∧ ∃ unique, exists_ fs (OsPath.join UPLOAD_FOLDER unique) = false
                 ∧ flat unique
                 ∧ fs' = write_file fs (OsPath.join UPLOAD_FOLDER unique) (stream f)
                 ∧ saved' = saved ++ [unique]).
Proof.
  unfold save_upload. destruct (PyStr.is_pdf_name (filename f)); simpl.
  - destruct (splitext_flat (filename f)) as [Hbase Hext].
    destruct (OsPath.splitext _) as [base ext]. simpl in *.
    destruct (find_unique _ _ _ _ _ _) as [unique|] eqn:Hloop; [|done].
    simpl. intros [= <- <-]. right. split; [done|]. exists unique.
    apply find_unique_result in Hloop as [Hfree Hshape]. split_and!; [done| |done..].
    destruct Hshape as [->|[n ->]]; [apply secure_filename_flat|].
    by apply numbered_plain.
  - intros [= <- <-]. by left.
Qed.

Lemma save_upload_total (fuel : nat) (fs : filesystem) saved f :
  (size fs + 3 ≤ fuel)%nat → is_Some (save_upload fuel (fs, saved) f).
Proof.
  intros Hfuel. unfold save_upload.
  destruct (PyStr.is_pdf_name (filename f)); simpl; [|by eexists].
  destruct (find_unique_total fs (filename f)) as (unique & Hloop & _).
  destruct (OsPath.splitext _) as [base ext]. simpl in Hloop.
  rewrite Hloop by done. by eexists.
Qed.

Lemma size_write_file (fs : filesystem) p data :
  (size (write_file fs p data) ≤ S (size fs))%nat.
Proof.
  unfold write_file. destruct (fs !! locate p) eqn:Hp.
  - rewrite map_size_insert_Some by by eexists. lia.
  - by rewrite map_size_insert_None.
Qed.

Lemma save_all_total files : ∀ (fuel : nat) (fs : filesystem) saved,
  (size fs + length files + 3 ≤ fuel)%nat →
  is_Some (save_all fuel (fs, saved) files).
Proof.
  induction files as [|f files IH]; intros fuel fs saved Hfuel; [by eexists|].
  cbn [save_all length] in *.
  destruct (save_upload_total fuel fs saved f) as [[fs' saved'] Hstep]; [lia|].
  rewrite Hstep. cbn [mbind option_bind]. apply IH.
  apply save_upload_result in Hstep as [(_ & -> & _)|(_ & unique & _ & _ & -> & _)];
    [lia|].
  pose proof (size_write_file fs (OsPath.join UPLOAD_FOLDER unique) (stream f)). lia.
Qed.

(** What the upload loop keeps true from turn to turn. *)
Lemma save_all_result files : ∀ fuel (fs : filesystem) saved fs' saved',
  save_all fuel (fs, saved) files = Some (fs', saved') →
  ∃ new,
    saved' = saved ++ new
    ∧ NoDup new
    ∧ Forall flat new
    ∧ Forall (λ unique, exists_ fs (OsPath.join UPLOAD_FOLDER unique) = false) new
    ∧ Forall2 (λ unique f,
                 fs' !! locate (OsPath.join UPLOAD_FOLDER unique) = Some (File (stream f)))
              new (pdf_entries files)
    ∧ (∀ loc entry, fs !! loc = Some entry → fs' !! loc = Some entry).
Proof.
  induction files as [|f files IH]; intros fuel fs saved fs' saved'.
  - intros [= <- <-]. exists []. rewrite app_nil_r. by repeat constructor.
  - cbn [save_all].
    destruct (save_upload fuel (fs, saved) f) as [[fs1 saved1]|] eqn:Hstep; [|done].
    cbn [mbind option_bind]. intros Hrest.
    destruct (IH _ _ _ _ _ Hrest) as (new & -> & Hnodup & Hflat & Hfree & Hnow & Hkeep).
    unfold pdf_entries in *. rewrite filter_cons.
    apply save_upload_result in Hstep
      as [(Hname & -> & ->)|(Hname & unique & Hunique & Huflat & -> & ->)].
    + exists new. rewrite decide_False by congruence. done.
    + exists (unique :: new). rewrite decide_True by done.
      assert (write_file fs (OsPath.join UPLOAD_FOLDER unique) (stream f)
                !! locate (OsPath.join UPLOAD_FOLDER unique)
              = Some (File (stream f))) as Hwritten.
      { unfold write_file. apply lookup_insert_eq. }
      split_and!.
      * by rewrite <- app_assoc.
      * constructor; [|done]. intros Hin.
        rewrite list.Forall_forall in Hfree. specialize (Hfree _ Hin).
        apply exists_false in Hfree. congruence.
      * by constructor.
      * constructor; [done|]. eapply list.Forall_impl; [exact Hfree|].
        intros name Hname'. simpl in Hname'. rewrite exists_write_file in Hname'.
        by apply orb_false_elim in Hname' as [_ ?].
      * constructor; [|done]. by apply Hkeep.
      * intros loc entry Hentry. apply Hkeep. by apply write_file_fresh.
Qed.

Lemma upload_files_result fuel fs files fs' response :
  upload_files fuel fs files = Some (fs', response) →
  save_all fuel (fs, []) files = Some (fs', saved response)
  ∧ all response = list_modules fs'.
Proof.
  unfold upload_files.
  destruct (save_all fuel (fs, []) files) as [[fs1 saved1]|]; [|done].
  by intros [= <- <-].
Qed.

Lemma pdf_name_plain name : flat name → PyStr.is_pdf_name name = true → plain name.
Proof. intros Hflat Hpdf. split; [done|]. by split_and!; intros ->. Qed.

(** X1. An upload request of any number of files ends, once the loops are
    given as many turns as the store has entries plus the request has files
    plus three, and answers with the listing of the store it leaves. *)
Theorem upload_request_completes (fuel : nat) (fs : filesystem) files :
  (size fs + length files + 3 ≤ fuel)%nat →
  ∃ fs' response,
    upload_files fuel fs files = Some (fs', response)
    ∧ all response = list_modules fs'
    ∧ length (saved response) = length (pdf_entries files).
Proof.
  intros Hfuel. destruct (save_all_total files fuel fs [] Hfuel) as [[fs' saved'] Hall].
  exists fs', {| saved := saved'; all := list_modules fs' |}.
  unfold upload_files. rewrite Hall. split_and!; [done..|]. simpl.
  destruct (save_all_result _ _ _ _ _ _ Hall) as (new & -> & _ & _ & _ & Hstored & _).
  by apply Forall2_length in Hstored.
Qed.

(** X2. An upload request never touches what the store held: every entry
    is kept as it was, every name it reports as saved was free before the
    request, and no name is reported twice. *)
Theorem upload_request_keeps_store fuel fs files fs' response :
  upload_files fuel fs files = Some (fs', response) →
  (∀ loc entry, fs !! loc = Some entry → fs' !! loc = Some entry)
  ∧ Forall (λ unique, exists_ fs (OsPath.join UPLOAD_FOLDER unique) = false)
           (saved response)
  ∧ NoDup (saved response).
Proof.
  intros [Hall _]%upload_files_result.
  destruct (save_all_result _ _ _ _ _ _ Hall) as (new & Hsaved & Hnodup & _ & Hfree & _ & Hkeep).
  simpl in Hsaved. by rewrite Hsaved.
Qed.

(** X3. Every PDF of an upload request is stored verbatim under the name
    the response reports for it, in the order of the request. *)
Theorem upload_request_stores_verbatim fuel fs files fs' response :
  upload_files fuel fs files = Some (fs', response) →
  Forall2 (λ unique f, read_file fs' (OsPath.join UPLOAD_FOLDER unique) = Ok (stream f))
          (saved response) (pdf_entries files).
Proof.
  intros [Hall _]%upload_files_result.
  destruct (save_all_result _ _ _ _ _ _ Hall) as (new & Hsaved & _ & _ & _ & Hstored & _).
  simpl in Hsaved. rewrite Hsaved. eapply list.Forall2_impl; [exact Hstored|].
  intros unique f Hfile. unfold read_file. simpl in Hfile. by rewrite Hfile.
Qed.

(** X4. After an upload request every module listed before is still
    listed, and a name the response reports as saved is in its listing
    exactly when it ends in [.pdf]. *)
Theorem upload_request_listing fuel fs files fs' response :
  upload_files fuel fs files = Some (fs', response) →
  (∀ name, name ∈ list_modules fs → name ∈ all response)
  ∧ (∀ unique, unique ∈ saved response →
       (unique ∈ all response ↔ PyStr.is_pdf_name unique = true)).
Proof.
  intros [Hall ->]%upload_files_result.
  destruct (save_all_result _ _ _ _ _ _ Hall) as (new & Hsaved & _ & Hflat & _ & Hstored & Hkeep).
  simpl in Hsaved. rewrite Hsaved. split.
  - intros name [[entry Hentry] Hpdf]%elem_of_list_modules.
    apply elem_of_list_modules. split; [|done]. eexists. by apply Hkeep.
  - intros unique Hin. rewrite elem_of_list_modules. split; [tauto|].
    intros Hpdf. split; [|done].
    rewrite list.Forall_forall in Hflat.
    rewrite <- locate_join by (apply pdf_name_plain; [by apply Hflat|done]).
    apply list_elem_of_lookup in Hin as [i Hi].
    destruct (Forall2_lookup_l _ _ _ _ _ Hstored Hi) as (f & _ & Hfile).
    by eexists.
Qed.

End UploadRequests.

(** ** The store under export *)

Section AreaProperties.
Context `{Deployment}.

Lemma locate_covers : locate COVER_FOLDER = locate UPLOAD_FOLDER ++ ["covers"].
Proof. by apply locate_join. Qed.

Lemma locate_exports : locate EXPORT_FOLDER = locate UPLOAD_FOLDER ++ ["exports"].
Proof. by apply locate_join. Qed.

(** The listing depends on the entries of the modules folder only. *)
Lemma list_modules_ext (fs fs' : filesystem) :
  (∀ name, is_Some (fs' !! (locate UPLOAD_FOLDER ++ [name]))
           ↔ is_Some (fs !! (locate UPLOAD_FOLDER ++ [name]))) →
  list_modules fs' = list_modules fs.
Proof.
  intros Hsame. apply (StronglySorted_unique String.le);
    [apply list_modules_sorted..|].
  apply NoDup_Permutation; [apply NoDup_list_modules..|].
  intros name. rewrite !elem_of_list_modules, Hsame. done.
Qed.

(** Writing below a sub-folder of the modules folder leaves the listing. *)
Lemma list_modules_write_below (fs : filesystem) folder name data :
  plain folder → plain name →
  list_modules
    (write_file fs (OsPath.join (OsPath.join UPLOAD_FOLDER folder) name) data)
  = list_modules fs.
Proof.
  intros Hfolder Hname. apply list_modules_ext. intros entry.
  unfold write_file. rewrite !locate_join by done.
  rewrite lookup_insert_ne; [done|].
  rewrite <- app_assoc. intros Heq%app_inv_head. discriminate Heq.
Qed.

End AreaProperties.

Section ExportMore.
Context `{Deployment, Pypdf}.

Lemma opened_try_add fs path on_error m :
  opened (try_add fs path on_error m) = opened m ++ [path].
Proof.
  unfold try_add. destruct (PdfReader fs path) as [pages|e]; simpl; [|done].
  rewrite add_pages_completed. by destruct (raised pages).
Qed.

Lemma stdout_try_add fs path on_error m :
  stdout (try_add fs path on_error m)
  = stdout m ++ match PdfReader fs path with
                | Ok pages => match raised pages with
                              | Some e => [on_error e]
                              | None => []
                              end
                | Raise e => [on_error e]
                end.
Proof.
  unfold try_add. destruct (PdfReader fs path) as [pages|e]; simpl; [|done].
  rewrite add_pages_completed. destruct (raised pages); simpl; [done|].
  by rewrite app_nil_r.
Qed.

Lemma tidy_try_add fs path on_error m :
  exists_ fs path = true → tidy_merger fs m →
  tidy_merger fs (try_add fs path on_error m).
Proof.
  intros Hex [Hopened Hlog]. unfold tidy_merger.
  rewrite opened_try_add, stdout_try_add, list.filter_app, !length_app, <- Hlog.
  split; [apply Forall_app; by repeat constructor|]. f_equal.
  rewrite filter_cons, filter_nil. unfold unreadable.
  destruct (PdfReader fs path) as [pages|e] eqn:Hread.
  - destruct (raised pages) as [e|].
    + rewrite decide_True; [done|]. apply bool_decide_eq_true. by eexists.
    + rewrite decide_False; [done|]. rewrite bool_decide_eq_false_2; [done|].
      by intros [? ?].
  - by rewrite decide_True.
Qed.

Lemma tidy_merge_sources fs cover files : tidy_merger fs (merge_sources fs cover files).
Proof.
  unfold merge_sources.
  assert (tidy_merger fs (add_cover fs cover PdfWriter)) as Hcover.
  { unfold add_cover. destruct cover as [c|]; [|by split].
    destruct (PyStr.truthy c); [|by split].
    destruct (exists_ fs _) eqn:Hex; [|by split].
    by apply tidy_try_add. }
  revert Hcover. generalize (add_cover fs cover PdfWriter).
  induction files as [|f files IH]; intros m Hm; [done|].
  simpl. apply IH. unfold add_module.
  destruct (exists_ fs _) eqn:Hex; [|done].
  destruct (PyStr.is_pdf_name f); [|done]. by apply tidy_try_add.
Qed.

End ExportMore.

Section ExportTheorems.
Context `{Deployment, Pypdf}.

Lemma export_name_inj : Inj (=) (=) export_name.
Proof.
  intros t1 t2 Heq. unfold export_name in Heq.
  apply (inj (String.app "proposal_")), app_inj_r in Heq. by apply (inj pretty).
Qed.

Lemma opened_add_modules fs files : ∀ m path,
  path ∈ opened (fold_left (add_module fs) files m) →
  path ∈ opened m ∨ ∃ f, f ∈ files ∧ path = OsPath.join UPLOAD_FOLDER f.
Proof.
  induction files as [|f files IH]; intros m path Hpath; [by left|].
  simpl in Hpath. apply IH in Hpath as [Hpath|(f' & Hf' & ->)].
  - unfold add_module in Hpath.
    destruct (exists_ fs _ && PyStr.is_pdf_name f); [|by left].
    rewrite opened_try_add in Hpath.
    apply elem_of_app in Hpath as [Hpath| ->%list_elem_of_singleton]; [by left|].
    right. exists f. split; [by left|done].
  - right. exists f'. split; [by right|done].
Qed.

(** The paths the merger opens are those of its sources. *)
Lemma opened_sources fs cover files path :
  path ∈ opened (merge_sources fs cover files) →
  (∃ c, cover = Some c ∧ path = OsPath.join COVER_FOLDER c)
  ∨ (∃ f, f ∈ files ∧ path = OsPath.join UPLOAD_FOLDER f).
Proof.
  unfold merge_sources. intros [Hpath|Hpath]%opened_add_modules; [left|by right].
  unfold add_cover in Hpath. destruct cover as [c|]; [|by apply elem_of_nil in Hpath].
  destruct (PyStr.truthy c); [|by apply elem_of_nil in Hpath].
  destruct (exists_ fs _); [|by apply elem_of_nil in Hpath].
  rewrite opened_try_add in Hpath. apply list_elem_of_singleton in Hpath as ->.
  by exists c.
Qed.

(** X5. With module names that hold no separator and are not [.] or [..],
    and a cover name of that kind or none, every file the merger opens
    lies in the modules folder or below it. *)
Theorem export_plain_names_confined fs timestamp cover files :
  (∀ c, cover = Some c → plain c) →
  Forall plain files →
  Forall (λ path, in_modules_area path = true)
         (opened (export_pdf fs timestamp cover files).1.2).
Proof.
  intros Hcover Hfiles. apply list.Forall_forall. intros path Hpath.
  unfold export_pdf in Hpath. simpl in Hpath.
  unfold in_modules_area, OsPath.inside.
  apply opened_sources in Hpath as [(c & -> & ->)|(f & Hf & ->)].
  - rewrite locate_join, locate_covers by by apply Hcover.
    apply andb_true_intro. split; apply bool_decide_eq_true.
    + rewrite <- app_assoc. by apply prefix_app_r.
    + rewrite <- app_assoc. intros Heq. apply (f_equal length) in Heq.
      rewrite length_app in Heq. simpl in Heq. lia.
  - rewrite list.Forall_forall in Hfiles. rewrite locate_join by by apply Hfiles.
    apply andb_true_intro. split; apply bool_decide_eq_true.
    + by apply prefix_app_r.
    + intros Heq. apply (f_equal length) in Heq.
      rewrite length_app in Heq. simpl in Heq. lia.
Qed.

(** X6. Every path the merger opens exists, and its log has exactly one
    line for each opened path that does not parse, whether it cannot be
    opened or fails part-way: the log is empty exactly when every opened
    source was read to its last page. *)
Theorem export_log_accounts fs timestamp cover files :
  let m := (export_pdf fs timestamp cover files).1.2 in
  Forall (λ path, exists_ fs path = true) (opened m)
  ∧ length (stdout m) = length (filter (λ path, unreadable fs path = true) (opened m))
  ∧ (stdout m = []
     ↔ Forall (λ path, ∃ pages, PdfReader fs path = Ok (Ok <$> pages)) (opened m)).
Proof.
  simpl. destruct (tidy_merge_sources fs cover files) as [Hopened Hlog].
  split_and!; [done..|].
  rewrite <- length_zero_iff_nil, Hlog, length_zero_iff_nil.
  generalize (opened (merge_sources fs cover files)). intros paths.
  induction paths as [|path paths IH]; [by split|].
  rewrite filter_cons, list.Forall_cons, <- IH. unfold unreadable.
  destruct (PdfReader fs path) as [reader|e].
  - destruct (raised reader) as [e|] eqn:Hraised.
    + rewrite decide_True by (apply bool_decide_eq_true; by eexists).
      split; [done|]. intros [[pages [= ->]] _]. by rewrite raised_pages in Hraised.
    + rewrite decide_False
        by (rewrite bool_decide_eq_false_2; [done|by intros [? ?]]).
      apply raised_None in Hraised as [pages ->]. split; [by eauto|tauto].
  - rewrite decide_True by done. split; [done|]. by intros [[? ?] _].
Qed.

(** X7. An export changes one entry of the store, the file it writes in
    the exports folder: every other entry, the exports of other clock
    readings among them, and the listing of the modules stay as they
    were. *)
Theorem export_keeps_store fs timestamp cover files :
  let fs' := (export_pdf fs timestamp cover files).1.1 in
  (∀ loc, loc ≠ locate EXPORT_FOLDER ++ [export_name timestamp] →
          fs' !! loc = fs !! loc)
  ∧ (∀ other, other ≠ timestamp →
       fs' !! (locate EXPORT_FOLDER ++ [export_name other])
       = fs !! (locate EXPORT_FOLDER ++ [export_name other]))
  ∧ list_modules fs' = list_modules fs.
Proof.
  simpl. unfold write_file. rewrite export_in_exports.
  assert (∀ loc, loc ≠ locate EXPORT_FOLDER ++ [export_name timestamp] →
                 <[locate EXPORT_FOLDER ++ [export_name timestamp] :=
                     File (write_pdf (writer (merge_sources fs cover files)))]> fs !! loc
                 = fs !! loc) as Hframe.
  { intros loc Hloc. by rewrite lookup_insert_ne. }
  split_and!; [done| |].
  - intros other Hother. apply Hframe. intros Heq%app_inv_head.
    assert (export_name other = export_name timestamp) as Hname by congruence.
    by apply export_name_inj in Hname.
  - rewrite <- export_in_exports.
    apply (list_modules_write_below fs "exports" (export_name timestamp));
      [done|apply export_name_plain].
Qed.

End ExportTheorems.

(** ** From upload to export *)

Section SuffixProperties.

Lemma lower_app a b : PyStr.lower (a +:+ b) = PyStr.lower a +:+ PyStr.lower b.
Proof. induction a as [|c a IH]; [done|]. rewrite app_String. simpl. by rewrite IH. Qed.

Lemma rev_app_acc s : ∀ acc, String.rev_app s acc = String.rev_app s "" +:+ acc.
Proof.
  induction s as [|c s IH]; intros acc; [done|]. simpl.
  rewrite (IH (String c acc)), (IH (String c "")). by rewrite app_assoc_string.
Qed.

Lemma rev_app_app a b : ∀ acc,
  String.rev_app (a +:+ b) acc = String.rev_app b (String.rev_app a acc).
Proof.
  induction a as [|c a IH]; intros acc; [done|]. rewrite app_String. simpl. apply IH.
Qed.

Lemma rev_app_string a b : String.rev (a +:+ b) = String.rev b +:+ String.rev a.
Proof. unfold String.rev. by rewrite rev_app_app, rev_app_acc. Qed.

Lemma prefix_app p : ∀ u v, String.prefix p u = true → String.prefix p (u +:+ v) = true.
Proof.
  induction p as [|c p IH]; intros u v; [by destruct (u +:+ v)|].
  destruct u as [|c' u]; [done|]. rewrite app_String. simpl.
  destruct (ascii_dec c c'); [apply IH|done].
Qed.

(** A name keeps its [.pdf] ending when something is put before it. *)
Lemma is_pdf_name_app a b : PyStr.is_pdf_name b = true → PyStr.is_pdf_name (a +:+ b) = true.
Proof.
  unfold PyStr.is_pdf_name, PyStr.endswith. intros Hb.
  rewrite lower_app, rev_app_string. by apply prefix_app.
Qed.

Lemma endswith_sep_app a b :
  b ≠ "" → OsPath.endswith_sep (a +:+ b) = OsPath.endswith_sep b.
Proof.
  intros Hb. induction a as [|c a IH]; [done|]. rewrite app_String.
  destruct (a +:+ b) as [|c' s] eqn:Hab.
  - destruct a; [by rewrite app_empty_l in Hab|done].
  - simpl. simpl in IH. done.
Qed.

End SuffixProperties.

Section Overlap.
Context `{Deployment}.

Lemma join_child dir c :
  OsPath.startswith_sep c = false →
  OsPath.join (OsPath.join dir "covers") c = OsPath.join dir ("covers/" +:+ c).
Proof.
  intros Hc.
  assert (∀ a, PyStr.truthy (a +:+ "covers") = true) as Htruthy by (by intros []).
  assert (OsPath.join dir ("covers/" +:+ c)
          = if negb (PyStr.truthy dir) || OsPath.endswith_sep dir
            then dir +:+ "covers/" +:+ c else dir +:+ "/" +:+ "covers/" +:+ c) as -> by done.
  assert (OsPath.join dir "covers"
          = if negb (PyStr.truthy dir) || OsPath.endswith_sep dir
            then dir +:+ "covers" else dir +:+ "/" +:+ "covers") as -> by done.
  destruct (negb (PyStr.truthy dir) || OsPath.endswith_sep dir).
  - unfold OsPath.join. rewrite Hc, Htruthy, endswith_sep_app by done. simpl.
    by rewrite !app_assoc_string.
  - unfold OsPath.join. rewrite Hc.
    rewrite <- (app_assoc_string dir "/" "covers"), Htruthy, endswith_sep_app by done.
    simpl. by rewrite !app_assoc_string.
Qed.

(** The covers folder lies in the modules folder: the module name
    [covers/c] and the cover name [c] are the same path. *)
Lemma join_covers c :
  OsPath.startswith_sep c = false →
  OsPath.join UPLOAD_FOLDER ("covers/" +:+ c) = OsPath.join COVER_FOLDER c.
Proof. intros Hc. unfold COVER_FOLDER. by rewrite join_child. Qed.

End Overlap.

Section RoundTrips.
Context `{Deployment, Pypdf, Werkzeug}.

Lemma added_stored fs path data :
  fs !! locate path = Some (File data) →
  exists_ fs path = true ∧ added fs path = readable_pages data.
Proof.
  intros Hfile. unfold exists_, added, PdfReader, read_file, readable_pages.
  rewrite Hfile. by rewrite bool_decide_eq_true_2 by by eexists.
Qed.

(** X8. What an upload request stores can be exported: an export of the
    names the response reports, when they all end in [.pdf], holds the
    pages read from the uploaded PDFs in the order of the request: all the
    pages of an upload that parses, the pages before the error of one that
    fails part-way, none of one that cannot be opened. *)
Theorem uploaded_modules_export fuel fs files fs' response timestamp :
  upload_files fuel fs files = Some (fs', response) →
  Forall (λ unique, PyStr.is_pdf_name unique = true) (saved response) →
  writer (export_pdf fs' timestamp None (saved response)).1.2
  = concat ((λ f, readable_pages (stream f)) <$> pdf_entries files).
Proof.
  intros [Hall _]%upload_files_result Hpdf.
  destruct (save_all_result _ _ _ _ _ _ Hall) as (new & Hsaved & _ & _ & _ & Hstored & _).
  simpl in Hsaved. rewrite Hsaved in *. simpl.
  rewrite writer_merge_sources. simpl.
  clear Hall Hsaved.
  induction Hstored as [|unique f new entries Hfile _ IH]; [done|].
  apply list.Forall_cons in Hpdf as [Hunique Hpdf]. rewrite !fmap_cons. simpl.
  rewrite IH by done. f_equal. unfold module_added. rewrite Hunique.
  by destruct (added_stored _ _ _ Hfile) as [-> ->].
Qed.

(** X9. The covers folder lies inside the modules folder, so a cover can
    be merged as a module: the module name [covers/c] gives the pages the
    cover name [c] gives. *)
Theorem cover_merged_as_module fs c :
  OsPath.startswith_sep c = false →
  PyStr.is_pdf_name c = true →
  OsPath.join UPLOAD_FOLDER ("covers/" +:+ c) = OsPath.join COVER_FOLDER c
  ∧ writer (merge_sources fs None ["covers/" +:+ c])
    = writer (merge_sources fs (Some c) []).
Proof.
  intros Hc Hpdf. split; [by apply join_covers|].
  rewrite !writer_merge_sources. simpl.
  unfold module_added. rewrite is_pdf_name_app by done.
  rewrite join_covers by done. rewrite !app_nil_r, andb_true_r.
  by destruct c as [|x c].
Qed.

End RoundTrips.

Section WrapTheorems.
Context `{Reportlab}.

Lemma greedy_truthy words :
  Forall PyStr.word words →
  ∀ current, PyStr.truthy current = true →
    Forall (λ line, PyStr.truthy line = true) (greedy current words).
Proof.
  induction 1 as [|w words Hw Hwords IH]; intros current Hcur; simpl.
  - rewrite Hcur. by constructor.
  - destruct (decide (fits (extend current w))).
    + apply IH. by apply extend_truthy.
    + constructor; [done|]. apply IH, truthy_true, Hw.
Qed.

Lemma greedy_join words :
  Forall PyStr.word words →
  ∀ current, PyStr.truthy current = true →
    PyStr.join " " (greedy current words) = PyStr.join " " (current :: words).
Proof.
  induction 1 as [|w words Hw Hwords IH]; intros current Hcur.
  - simpl. by rewrite Hcur.
  - assert (PyStr.truthy w = true) as Hne by apply truthy_true, Hw.
    cbn [greedy]. destruct (decide (fits (extend current w))).
    + rewrite IH by by apply extend_truthy.
      rewrite <- !join_extend by (done || by apply extend_truthy). done.
    + pose proof (greedy_nonempty words w Hne) as Hlen.
      specialize (IH w Hne).
      destruct (greedy w words) as [|line lines] eqn:Hlines; [simpl in Hlen; lia|].
      change (PyStr.join " " (current :: line :: lines))
        with (current +:+ " " +:+ PyStr.join " " (line :: lines)).
      by rewrite IH.
Qed.

Lemma filter_truthy lines :
  Forall (λ line, PyStr.truthy line = true) lines →
  filter (λ line, PyStr.truthy line = true) lines = lines.
Proof.
  induction 1 as [|line lines Hline _ IH]; [done|].
  rewrite filter_cons_True by done. by rewrite IH.
Qed.

Lemma greedy_lines (all : list string) words :
  (∀ w, w ∈ words → w ∈ all) →
  ∀ current, fits current ∨ current ∈ all ∨ current = "" →
    Forall (λ line, fits line ∨ line ∈ all ∨ line = "") (greedy current words).
Proof.
  induction words as [|w words IH]; intros Hall current Hcur; simpl.
  - destruct (PyStr.truthy current); [by constructor|constructor].
  - destruct (decide (fits (extend current w))) as [Hfit|Hover].
    + apply IH; [|by left]. intros w' Hw'. apply Hall. by right.
    + constructor; [done|]. apply IH.
      * intros w' Hw'. apply Hall. by right.
      * right; left. apply Hall. by left.
Qed.

(** X12. Wrapping the title loses no word and adds none: the lines that
    are not empty, joined by single spaces, are the words of the title
    joined by single spaces. *)
Theorem wrap_keeps_words title :
  PyStr.join " " (filter (λ line, PyStr.truthy line = true) (wrap_title title))
  = PyStr.join " " (PyStr.split title).
Proof.
  rewrite wrap_title_refines. pose proof (split_words title) as Hwords.
  destruct (PyStr.split title) as [|w words]; [done|].
  apply list.Forall_cons in Hwords as [Hw Hwords].
  assert (PyStr.truthy w = true) as Hne by apply truthy_true, Hw.
  cbn [greedy]. change (extend "" w) with w.
  destruct (decide (fits w)).
  - rewrite filter_truthy by by apply greedy_truthy. by apply greedy_join.
  - rewrite list.filter_cons_False by done.
    rewrite filter_truthy by by apply greedy_truthy. by apply greedy_join.
Qed.

(** X13. A line of the wrapped title is narrower than 80% of the page
    width, unless it is a single word of the title, which is never broken,
    or the empty line. *)
Theorem wrap_lines_fit title :
  Forall (λ line, fits line ∨ line ∈ PyStr.split title ∨ line = "")
    (wrap_title title).
Proof.
  rewrite wrap_title_refines. apply greedy_lines; [done|]. by right; right.
Qed.

Lemma greedy_first_line words : ∀ current,
  PyStr.truthy current = true →
  ∃ k rest,
    greedy current words = PyStr.join " " (current :: take k words) :: rest.
Proof.
  induction words as [|w words IH]; intros current Hcur.
  - exists 0%nat, []. simpl. by rewrite Hcur.
  - cbn [greedy]. destruct (decide (fits (extend current w))).
    + destruct (IH (extend current w)) as (k & rest & ->).
      { unfold extend. rewrite Hcur. by destruct current. }
      exists (S k), rest. f_equal.
      rewrite <- !join_extend by (done || (unfold extend; rewrite Hcur; by destruct current)).
      done.
    + by exists 0%nat, (greedy w words).
Qed.

(** X14. A title whose first word alone is too wide for a line starts
    with an empty line: the loop commits the still empty current line, and
    the second line starts with that word, followed by the words after it
    that the line takes. *)
Theorem wide_first_word_leaves_blank_line title w words :
  PyStr.split title = w :: words →
  ¬ fits w →
  ∃ k rest,
    wrap_title title = "" :: PyStr.join " " (w :: take k words) :: rest.
Proof.
  intros Hsplit Hover. rewrite wrap_title_refines.
  pose proof (split_words title) as Hwords. rewrite Hsplit in *.
  apply list.Forall_cons in Hwords as [Hw Hwords].
  assert (PyStr.truthy w = true) as Hne by apply truthy_true, Hw.
  cbn [greedy]. change (extend "" w) with w.
  rewrite decide_False by done.
  destruct (greedy_first_line words w Hne) as (k & rest & ->).
  by exists k, rest.
Qed.

End WrapTheorems.

(** ** Examples for the further properties *)

Module FurtherExamples.
Import Demo.
#[local] Existing Instances deployment pypdf werkzeug reportlab datetime_.

Lemma upload_request_completes_witness :
  ∃ fs' response,
    upload_files 20 fresh [a_pdf; notes_txt; a_pdf] = Some (fs', response)
    ∧ all response = list_modules fs'
    ∧ length (saved response) = length (pdf_entries [a_pdf; notes_txt; a_pdf]).
Proof.
  apply (upload_request_completes 20 fresh [a_pdf; notes_txt; a_pdf]).
  vm_compute. lia.
Defined.

Lemma upload_request_keeps_store_witness :
  ∃ fs' response,
    upload_files 5 fresh [a_pdf; a_pdf] = Some (fs', response)
    ∧ (∀ loc entry, fresh !! loc = Some entry → fs' !! loc = Some entry)
    ∧ Forall (λ unique, exists_ fresh (OsPath.join UPLOAD_FOLDER unique) = false)
        (saved response)
    ∧ NoDup (saved response).
Proof.
  eexists _, _. split; [reflexivity|].
  apply (upload_request_keeps_store 5 fresh [a_pdf; a_pdf]). reflexivity.
Defined.

Lemma upload_request_stores_verbatim_witness :
  ∃ fs' response,
    upload_files 5 fresh [a_pdf; notes_txt; b_pdf] = Some (fs', response)
    ∧ Forall2 (λ unique f,
                 read_file fs' (OsPath.join UPLOAD_FOLDER unique) = Ok (stream f))
        (saved response) [a_pdf; b_pdf].
Proof.
  eexists _, _. split; [reflexivity|].
  apply (upload_request_stores_verbatim 5 fresh [a_pdf; notes_txt; b_pdf]). reflexivity.
Defined.

Lemma upload_request_listing_witness :
  ∃ fs' response,
    upload_files 5 store [a_pdf] = Some (fs', response)
    ∧ (∀ name, name ∈ list_modules store → name ∈ all response)
    ∧ (∀ unique, unique ∈ saved response →
         (unique ∈ all response ↔ PyStr.is_pdf_name unique = true)).
Proof.
  eexists _, _. split; [reflexivity|].
  eapply (upload_request_listing 5 store [a_pdf]). reflexivity.
Defined.

Lemma export_plain_names_confined_witness :
  Forall (λ path, in_modules_area path = true)
    (opened (export_pdf store clock (Some "cover_X.pdf") ["a.pdf"; "b.pdf"]).1.2).
Proof.
  apply (export_plain_names_confined store clock (Some "cover_X.pdf") ["a.pdf"; "b.pdf"]).
  - intros c [= <-]. by vm_compute.
  - repeat constructor; by vm_compute.
Defined.

Lemma uploaded_modules_export_witness :
  ∃ fs' response,
    upload_files 5 fresh [a_pdf; notes_txt; torn_pdf] = Some (fs', response)
    ∧ writer (export_pdf fs' clock None (saved response)).1.2 = [Byte.x01; Byte.x07].
Proof.
  eexists _, _. split; [reflexivity|].
  etrans; [apply (uploaded_modules_export 5 fresh [a_pdf; notes_txt; torn_pdf]);
             [reflexivity|repeat constructor]|reflexivity].
Defined.

Lemma cover_merged_as_module_witness :
  OsPath.join UPLOAD_FOLDER "covers/cover_X.pdf" = OsPath.join COVER_FOLDER "cover_X.pdf"
  ∧ writer (merge_sources store None ["covers/cover_X.pdf"])
    = writer (merge_sources store (Some "cover_X.pdf") []).
Proof. apply (cover_merged_as_module store "cover_X.pdf"); reflexivity. Defined.

Lemma wide_first_word_leaves_blank_line_witness :
  ∃ k rest,
    wrap_title wide_title
    = "" :: PyStr.join " " ("WWWWWWWWWWWWWWWW" :: take k ["of"; "W"]) :: rest.
Proof.
  apply (wide_first_word_leaves_blank_line wide_title "WWWWWWWWWWWWWWWW" ["of"; "W"]);
    by vm_compute.
Defined.

End FurtherExamples.
